(** * check_puppetfile_dependencies.py: a shallow embedding

    The hook [pre_commit_hooks/check_puppetfile_dependencies.py] reads an
    r10k Puppetfile, queries the Puppet Forge for every module pinned to a
    GitHub repository and checks the Forge's dependency requirements against
    the tags pinned in the Puppetfile.

    Strings are [string] (ASCII); Python dicts are association lists in
    insertion order; the [semver] package (version 3) is embedded from its
    sources ([Version.parse], [Version.compare], [Version.match]); a
    [ValueError] is [None]. *)

From Stdlib Require Import String Ascii List Bool ZArith Lia.
Import ListNotations.

Local Open Scope bool_scope.

(** ** Character classes *)

Definition in_range (lo hi : nat) (c : ascii) : bool :=
  (lo <=? nat_of_ascii c)%nat && (nat_of_ascii c <=? hi)%nat.

(** [\d] *)
Definition is_digit (c : ascii) : bool := in_range 48 57 c.
Definition is_digit19 (c : ascii) : bool := in_range 49 57 c.
Definition is_alpha (c : ascii) : bool := in_range 65 90 c || in_range 97 122 c.
(** [[0-9a-zA-Z-]] *)
Definition is_ident_char (c : ascii) : bool :=
  is_digit c || is_alpha c || Ascii.eqb c "-"%char.
(** [\s] of a [str] pattern, and [str.isspace], on ASCII *)
Definition is_space (c : ascii) : bool :=
  in_range 9 13 c || in_range 28 32 c.
(** [[<>=]] *)
Definition is_op_char (c : ascii) : bool :=
  Ascii.eqb c "<"%char || Ascii.eqb c ">"%char || Ascii.eqb c "="%char.
(** [[\d.]] *)
Definition is_digit_or_dot (c : ascii) : bool := is_digit c || Ascii.eqb c "."%char.

(** ** String helpers *)

(** Longest prefix whose characters satisfy [p], and the rest. *)
Fixpoint take_while (p : ascii -> bool) (s : string) : string * string :=
  match s with
  | EmptyString => (EmptyString, EmptyString)
  | String c r =>
      if p c then let (a, b) := take_while p r in (String c a, b)
      else (EmptyString, s)
  end.

Fixpoint all_chars (p : ascii -> bool) (s : string) : bool :=
  match s with
  | EmptyString => true
  | String c r => p c && all_chars p r
  end.

Definition nonempty (s : string) : bool :=
  match s with EmptyString => false | _ => true end.

(** [s.split('.')] *)
Fixpoint split_dot (s : string) : list string :=
  match s with
  | EmptyString => [EmptyString]
  | String c r =>
      if Ascii.eqb c "."%char then EmptyString :: split_dot r
      else match split_dot r with
           | x :: xs => String c x :: xs
           | [] => [String c EmptyString]
           end
  end.

Fixpoint digits_value (acc : Z) (s : string) : Z :=
  match s with
  | EmptyString => acc
  | String c r => digits_value (acc * 10 + (Z.of_nat (nat_of_ascii c) - 48))%Z r
  end.

(** [int(s)] on a string of decimal digits *)
Definition int_of_digits (s : string) : Z := digits_value 0%Z s.

(** ** The [semver] package *)

Record Version := mkVersion {
  major : Z;
  minor : Z;
  patch : Z;
  prerelease : option string;
  build : option string
}.

(** [0|[1-9]\d*] *)
Definition parse_num (s : string) : option (Z * string) :=
  match s with
  | String c r =>
      if Ascii.eqb c "0"%char then Some (0%Z, r)
      else if is_digit19 c then
        let (ds, rest) := take_while is_digit r in
        Some (int_of_digits (String c ds), rest)
      else None
  | EmptyString => None
  end.

Definition expect (c : ascii) (s : string) : option string :=
  match s with
  | String c' r => if Ascii.eqb c c' then Some r else None
  | EmptyString => None
  end.

(** Python's [$]: the end of the string, or a final newline. *)
Definition at_end (s : string) : bool :=
  match s with
  | EmptyString => true
  | String c EmptyString => Ascii.eqb c "010"%char
  | _ => false
  end.

(** A pre-release identifier: [0|[1-9]\d*|\d*[a-zA-Z-][0-9a-zA-Z-]*]. *)
Definition pre_ident_ok (x : string) : bool :=
  match x with
  | EmptyString => false
  | String c r =>
      negb (all_chars is_digit x) || Ascii.eqb c "0"%char && negb (nonempty r)
      || is_digit19 c
  end.

(** The tail [(?:-prerelease)?(?:\+build)?$] of the semver regex.
    Both groups are runs of [[0-9a-zA-Z.-]]: what follows them is [+] or the
    end, so the regex takes them whole. *)
Definition is_dotted_char (c : ascii) : bool := is_ident_char c || Ascii.eqb c "."%char.

Definition parse_build (s : string) : option (option string) :=
  match s with
  | String c r =>
      if Ascii.eqb c "+"%char then
        let (b, rest) := take_while is_dotted_char r in
        if forallb nonempty (split_dot b) && at_end rest then Some (Some b) else None
      else if at_end s then Some None else None
  | EmptyString => Some None
  end.

Definition parse_tail (s : string) : option (option string * option string) :=
  match s with
  | String c r =>
      if Ascii.eqb c "-"%char then
        let (p, rest) := take_while is_dotted_char r in
        if forallb pre_ident_ok (split_dot p) then
          match parse_build rest with
          | Some b => Some (Some p, b)
          | None => None
          end
        else None
      else match parse_build s with
           | Some b => Some (None, b)
           | None => None
           end
  | EmptyString => Some (None, None)
  end.

(** [Version.parse]; [None] is the [ValueError] it raises. *)
Definition parse_version (s : string) : option Version :=
  match parse_num s with
  | None => None
  | Some (ma, r1) =>
  match expect "."%char r1 with
  | None => None
  | Some r2 =>
  match parse_num r2 with
  | None => None
  | Some (mi, r3) =>
  match expect "."%char r3 with
  | None => None
  | Some r4 =>
  match parse_num r4 with
  | None => None
  | Some (pa, r5) =>
  match parse_tail r5 with
  | None => None
  | Some (pre, bu) => Some (mkVersion ma mi pa pre bu)
  end end end end end end.

Definition is_valid_semver (s : string) : bool :=
  match parse_version s with Some _ => true | None => false end.

(** [_cmp] *)
Definition cmp_Z (a b : Z) : comparison := Z.compare a b.

Definition cmp_tuple (a b : Z * Z * Z) : comparison :=
  let '(a1, a2, a3) := a in
  let '(b1, b2, b3) := b in
  match cmp_Z a1 b1 with
  | Eq => match cmp_Z a2 b2 with Eq => cmp_Z a3 b3 | c => c end
  | c => c
  end.

(** A part of a pre-release after [convert]: an [int] or a [str]. *)
Inductive PreTag := PInt (n : Z) | PStr (s : string).

Definition convert (x : string) : PreTag :=
  if nonempty x && all_chars is_digit x then PInt (int_of_digits x) else PStr x.

Definition cmp_prerelease_tag (a b : PreTag) : comparison :=
  match a, b with
  | PInt x, PInt y => cmp_Z x y
  | PInt _, PStr _ => Lt
  | PStr _, PInt _ => Gt
  | PStr x, PStr y => String.compare x y
  end.

Fixpoint cmp_parts (xs ys : list PreTag) (tie : comparison) : comparison :=
  match xs, ys with
  | x :: xs', y :: ys' =>
      match cmp_prerelease_tag x y with
      | Eq => cmp_parts xs' ys' tie
      | c => c
      end
  | _, _ => tie
  end.

Definition opt_str (o : option string) : string :=
  match o with Some s => s | None => EmptyString end.

(** [_nat_cmp]: the tie is broken by the lengths of the two strings. *)
Definition nat_cmp (a b : option string) : comparison :=
  let a' := opt_str a in
  let b' := opt_str b in
  cmp_parts (map convert (split_dot a')) (map convert (split_dot b'))
    (Nat.compare (String.length a') (String.length b')).

(** [Version.compare] *)
Definition version_compare (v w : Version) : comparison :=
  match cmp_tuple (major v, minor v, patch v) (major w, minor w, patch w) with
  | Eq =>
      let rc1 := prerelease v in
      let rc2 := prerelease w in
      match nat_cmp rc1 rc2 with
      | Eq => Eq
      | rccmp =>
          if negb (nonempty (opt_str rc1)) then Gt
          else if negb (nonempty (opt_str rc2)) then Lt
          else rccmp
      end
  | c => c
  end.

(** [semver.compare(ver1, ver2)]; [None] is a [ValueError]. *)
Definition semver_compare (ver1 ver2 : string) : option comparison :=
  match parse_version ver1, parse_version ver2 with
  | Some v, Some w => Some (version_compare v w)
  | _, _ => None
  end.

(** [Version.match(match_expr)] *)
Definition version_match (v : Version) (match_expr : string) : option bool :=
  let prefix := substring 0 2 match_expr in
  let sel :=
    if String.eqb prefix ">=" || String.eqb prefix "<=" || String.eqb prefix "=="
       || String.eqb prefix "!=" then Some (prefix, substring 2 (String.length match_expr) match_expr)
    else match match_expr with
         | String c r =>
             if Ascii.eqb c ">"%char || Ascii.eqb c "<"%char then Some (String c EmptyString, r)
             else if is_digit c then Some ("=="%string, match_expr)
             else None
         | EmptyString => None
         end in
  match sel with
  | None => None
  | Some (op, match_version) =>
      match parse_version match_version with
      | None => None
      | Some w =>
          let c := version_compare v w in
          Some (if String.eqb op ">" then match c with Gt => true | _ => false end
                else if String.eqb op "<" then match c with Lt => true | _ => false end
                else if String.eqb op "==" then match c with Eq => true | _ => false end
                else if String.eqb op "!=" then match c with Eq => false | _ => true end
                else if String.eqb op ">=" then match c with Lt => false | _ => true end
                else match c with Gt => false | _ => true end)
      end
  end.

(** [semver.match(version, match_expr)] *)
Definition semver_match (version match_expr : string) : option bool :=
  match parse_version version with
  | None => None
  | Some v => version_match v match_expr
  end.

(** ** [compare_versions] *)

(** [re.findall(r'([<>=]+)\s*([\d.]+)', s)]: at each position a maximal run
    of operator characters, blanks, then a maximal run of digits and dots;
    scanning resumes after a match and one character further otherwise. *)
Fixpoint findall_clauses (fuel : nat) (s : string) : list (string * string) :=
  match fuel with
  | O => []
  | S fuel' =>
      match s with
      | EmptyString => []
      | String c r =>
          let (ops, r1) := take_while is_op_char s in
          let (_, r2) := take_while is_space r1 in
          let (ds, r3) := take_while is_digit_or_dot r2 in
          if is_op_char c && nonempty ds then (ops, ds) :: findall_clauses fuel' r3
          else findall_clauses fuel' r
      end
  end.

Definition findall (s : string) : list (string * string) :=
  findall_clauses (S (String.length s)) s.

(** The [for operator, version in requirements] loop. *)
Fixpoint check_requirements (puppet_dep_version : string)
    (reqs : list (string * string)) : bool :=
  match reqs with
  | [] => true
  | (operator, version) :: rest =>
      let test (ok : comparison -> bool) :=
        match semver_compare puppet_dep_version version with
        | None => false
        | Some c => if ok c then check_requirements puppet_dep_version rest else false
        end in
      if String.eqb operator ">=" then test (fun c => match c with Lt => false | _ => true end)
      else if String.eqb operator ">" then test (fun c => match c with Gt => true | _ => false end)
      else if String.eqb operator "<=" then test (fun c => match c with Gt => false | _ => true end)
      else if String.eqb operator "<" then test (fun c => match c with Lt => true | _ => false end)
      else if String.eqb operator "=" then test (fun c => match c with Eq => true | _ => false end)
      else check_requirements puppet_dep_version rest
  end.

Definition compare_versions (puppet_dep_version dep_version_requirement : string) : bool :=
  match findall dep_version_requirement with
  | [] =>
      match semver_match puppet_dep_version dep_version_requirement with
      | Some result => result
      | None => false
      end
  | requirements => check_requirements puppet_dep_version requirements
  end.

(** ** The Puppetfile *)

Record ModuleEntry := mkEntry { tag : string; git_url : string }.

(** Python dicts: association lists in insertion order; [d[k] = v]
    overwrites in place or appends. *)
Fixpoint dict_set {V} (k : string) (v : V) (d : list (string * V)) : list (string * V) :=
  match d with
  | [] => [(k, v)]
  | (k', v') :: d' => if String.eqb k k' then (k, v) :: d' else (k', v') :: dict_set k v d'
  end.

Fixpoint dict_get {V} (k : string) (d : list (string * V)) : option V :=
  match d with
  | [] => None
  | (k', v) :: d' => if String.eqb k k' then Some v else dict_get k d'
  end.

(** [line.strip()] *)
Fixpoint lstrip (s : string) : string :=
  match s with
  | String c r => if is_space c then lstrip r else s
  | EmptyString => EmptyString
  end.

Fixpoint rstrip (s : string) : string :=
  match s with
  | String c r =>
      let r' := rstrip r in
      if is_space c && negb (nonempty r') then EmptyString else String c r'
  | EmptyString => EmptyString
  end.

Definition strip (s : string) : string := rstrip (lstrip s).

(** Pieces of the line regex. *)
Definition lit (l s : string) : option string :=
  if String.prefix l s then Some (substring (String.length l) (String.length s) s) else None.

Definition spaces0 (s : string) : string := snd (take_while is_space s).

Definition spaces1 (s : string) : option string :=
  let (ws, r) := take_while is_space s in if nonempty ws then Some r else None.

(** ['([^']+)'] *)
Definition quoted (s : string) : option (string * string) :=
  match lit "'" s with
  | None => None
  | Some r =>
      let (x, r') := take_while (fun c => negb (Ascii.eqb c "'"%char)) r in
      if nonempty x then
        match lit "'" r' with Some r'' => Some (x, r'') | None => None end
      else None
  end.

Notation "'let?' x := e 'in' k" :=
  (match e with Some x => k | None => None end)
  (at level 200, x pattern, e at level 100, k at level 200).

(** [mod\s+'([^']+)',\s+:git\s*=>\s*'([^']+)',\s*:tag\s*=>\s*'([^']+)']
    anchored at the start of [s]. Every quantifier stops at a character
    outside its class that the next item needs, so the match is unique. *)
Definition match_line_at (s : string) : option (string * string * string) :=
  let? r := lit "mod" s in
  let? r := spaces1 r in
  let? (name, r) := quoted r in
  let? r := lit "," r in
  let? r := spaces1 r in
  let? r := lit ":git" r in
  let? r := lit "=>" (spaces0 r) in
  let? (url, r) := quoted (spaces0 r) in
  let? r := lit "," r in
  let? r := lit ":tag" (spaces0 r) in
  let? r := lit "=>" (spaces0 r) in
  let? (t, _) := quoted (spaces0 r) in
  Some (name, url, t).

(** [re.search]: the leftmost match. *)
Fixpoint search_line (s : string) : option (string * string * string) :=
  match match_line_at s with
  | Some m => Some m
  | None => match s with String _ r => search_line r | EmptyString => None end
  end.

(** [re.sub(r'^v', '', t, flags=re.IGNORECASE)]: the scan over positions;
    [^] only matches at position 0. *)
Fixpoint sub_v_from (pos : nat) (t : string) : string :=
  match t with
  | EmptyString => EmptyString
  | String c r =>
      if (pos =? 0)%nat && (Ascii.eqb c "v"%char || Ascii.eqb c "V"%char)
      then sub_v_from 1 r
      else String c (sub_v_from (S pos) r)
  end.

Definition strip_v (t : string) : string := sub_v_from 0 t.

(** The lines of a file opened in text mode (universal newlines). *)
Fixpoint line_then_rest (s : string) : string * option string :=
  match s with
  | EmptyString => (EmptyString, None)
  | String c r =>
      if Ascii.eqb c "010"%char then (EmptyString, Some r)
      else if Ascii.eqb c "013"%char then
        match r with
        | String c' r' => if Ascii.eqb c' "010"%char then (EmptyString, Some r') else (EmptyString, Some r)
        | EmptyString => (EmptyString, Some r)
        end
      else let (l, rest) := line_then_rest r in (String c l, rest)
  end.

Fixpoint lines_fuel (fuel : nat) (s : string) : list string :=
  match fuel, s with
  | O, _ => []
  | _, EmptyString => []
  | S fuel', _ =>
      let (l, rest) := line_then_rest s in
      l :: match rest with Some r => lines_fuel fuel' r | None => [] end
  end.

Definition file_lines (s : string) : list string := lines_fuel (S (String.length s)) s.

Definition ModuleData := list (string * ModuleEntry).

(** The body of [for line in f]: [(module_data, invalid_tags)]. *)
Definition parse_line (st : ModuleData * list (string * string)) (line : string)
    : ModuleData * list (string * string) :=
  let (module_data, invalid_tags) := st in
  match search_line (strip line) with
  | None => st
  | Some (module_name, git_url0, raw) =>
      let t := strip_v raw in
      if is_valid_semver t
      then (dict_set module_name (mkEntry t git_url0) module_data, invalid_tags)
      else (module_data, invalid_tags ++ [(module_name, t)])
  end.

Definition parse_lines (ls : list string) : ModuleData * list (string * string) :=
  fold_left parse_line ls ([], []).

(** ** Output, file system and Forge *)

Inductive DepLine :=
  | DL_NotFound (dep_name dep_version : string) (outdated : bool)
  | DL_Invalid (dep_name dep_version provided : string)
  | DL_Ok (dep_name dep_version : string).

(** One constructor per [print] of the script. *)
Inductive Msg :=
  | MsgFetchError (what : string)
  | MsgSkipping (module_name : string)
  | MsgNotFound (path : string)
  | MsgError (e : string)
  | MsgInvalidHeader
  | MsgInvalidTag (module_name t : string)
  | MsgDebugNotFound (dep_name : string)
  | MsgDebugInvalid (dep_name : string)
  | MsgModule (module_name : string)
  | MsgPuppetTag (t : string)
  | MsgForgeVersion (v : option string) (outdated : bool)
  | MsgDepsHeader
  | MsgDep (l : DepLine)
  | MsgSeparator
  | MsgDebugModule (module_has_errors outdated : bool)
  | MsgDebugHasErrors (has_errors : bool)
  | MsgDependencyErrors
  | MsgValid
  | MsgNoChanges
  | MsgHelp
  | MsgUsageError
  | MsgTraceback.

(** What [open(path, 'r')] finds. *)
Inductive FsEntry :=
  | FsMissing                 (* FileNotFoundError *)
  | FsError (e : string)      (* any other exception *)
  | FsFile (contents : string).

(** [parse_r10k_puppetfile]: what it prints and the dict it returns. *)
Definition parse_r10k_puppetfile (fs : string -> FsEntry) (puppetfile_path : string)
    : list Msg * ModuleData :=
  let '(msgs, (module_data, invalid_tags)) :=
    match fs puppetfile_path with
    | FsMissing => ([MsgNotFound puppetfile_path], ([], []))
    | FsError e => ([MsgError e], ([], []))
    | FsFile contents => ([], parse_lines (file_lines contents))
    end in
  let report :=
    match invalid_tags with
    | [] => []
    | _ => MsgInvalidHeader :: map (fun '(m, t) => MsgInvalidTag m t) invalid_tags
    end in
  (msgs ++ report, module_data).

(** The Forge's JSON documents, with the fields the script reads.
    [None] from an endpoint is a [RequestException]. *)
Record Dependency := mkDep { dep_name : string; version_requirement : string }.
Record ReleaseDoc := mkRelease {
  release_version : option string;            (* ['version'] *)
  release_dependencies : list Dependency      (* ['metadata']['dependencies'] *)
}.
Record ModuleDoc := mkModuleDoc {
  current_release_version : option string     (* ['current_release']['version'] *)
}.
Record Forge := mkForge {
  releases_api : string -> option ReleaseDoc; (* /v3/releases/{slug} *)
  modules_api : string -> option ModuleDoc    (* /v3/modules/{name} *)
}.

(** The HTTP requests the run issues. *)
Inductive Request := ReqRelease (release_slug : string) | ReqModule (module_name : string).

(** A run of a fetch: what it printed, what it requested, what it returned. *)
Record Fetched (A : Type) := mkFetched { f_out : list Msg; f_reqs : list Request; f_val : A }.
Arguments mkFetched {A}.
Arguments f_out {A}.
Arguments f_reqs {A}.
Arguments f_val {A}.

Definition get_forge_release_data (forge : Forge) (release_slug : string)
    : Fetched (option ReleaseDoc) :=
  match releases_api forge release_slug with
  | Some d => mkFetched [] [ReqRelease release_slug] (Some d)
  | None => mkFetched [MsgFetchError release_slug] [ReqRelease release_slug] None
  end.

Definition get_forge_module_data (forge : Forge) (module_name0 : string)
    : Fetched (option ModuleDoc) :=
  let module_name := if String.eqb module_name0 "puppet-resource_tree"
                     then "jake-resource_tree"%string else module_name0 in
  match modules_api forge module_name with
  | Some d => mkFetched [] [ReqModule module_name] (Some d)
  | None => mkFetched [MsgFetchError module_name] [ReqModule module_name] None
  end.

Record ForgeInfo := mkInfo {
  fi_tag : string;
  current_version : option string;
  dependencies : list Dependency;
  module_endpoint_version : option string
}.

Definition fetch_module_data (forge : Forge) (module_info : string * ModuleEntry)
    : Fetched (string * option ForgeInfo) :=
  let (module_name, data) := module_info in
  if negb (String.prefix "https://github.com/" (git_url data)) then
    mkFetched [] [] (module_name, None)
  else
    let release_slug :=
      if String.eqb module_name "puppet-resource_tree"
      then ("jake-resource_tree-" ++ tag data)%string
      else (module_name ++ "-" ++ tag data)%string in
    let r := get_forge_release_data forge release_slug in
    let m := get_forge_module_data forge module_name in
    let out := f_out r ++ f_out m in
    let reqs := f_reqs r ++ f_reqs m in
    match f_val r, f_val m with
    | Some forge_release_data, Some forge_module_data =>
        mkFetched out reqs
          (module_name, Some (mkInfo (tag data) (release_version forge_release_data)
                                (release_dependencies forge_release_data)
                                (current_release_version forge_module_data)))
    | _, _ => mkFetched (out ++ [MsgSkipping module_name]) reqs (module_name, None)
    end.

(** [get_current_release_and_metadata]: [pool.map] keeps the order of
    [module_data.items()]. *)
Definition collect_results (module_results : list (string * option ForgeInfo))
    : list (string * ForgeInfo) :=
  fold_left (fun results '(module_name, module_result) =>
               match module_result with
               | Some r => dict_set module_name r results
               | None => results
               end) module_results [].

Definition get_current_release_and_metadata (forge : Forge) (module_data : ModuleData)
    : Fetched (list (string * ForgeInfo)) :=
  let module_results := map (fetch_module_data forge) module_data in
  mkFetched (flat_map f_out module_results) (flat_map f_reqs module_results)
    (collect_results (map f_val module_results)).

Record Difference := mkDiff {
  puppet_tag : string;
  forge_version : option string;
  forge_dependencies : list Dependency;
  diff_module_endpoint_version : option string
}.

(** The body of the loop of [compare_modules]; [None] is the [KeyError] of
    [puppetfile_modules[module_name]]. Both branches build the same record. *)
Definition compare_step (puppetfile_modules : ModuleData)
    (acc : option (list (string * Difference))) (item : string * ForgeInfo)
    : option (list (string * Difference)) :=
  let (module_name, forge_info) := item in
  match acc with
  | None => None
  | Some differences =>
      match dict_get module_name puppetfile_modules with
      | None => None
      | Some e =>
          let p_tag := tag e in
          let f_version := current_version forge_info in
          let d :=
            if match f_version with Some v => negb (String.eqb p_tag v) | None => true end
            then mkDiff p_tag f_version (dependencies forge_info) (module_endpoint_version forge_info)
            else mkDiff p_tag f_version (dependencies forge_info) (module_endpoint_version forge_info) in
          Some (dict_set module_name d differences)
      end
  end.

Definition compare_modules (puppetfile_modules : ModuleData)
    (forge_modules : list (string * ForgeInfo)) : option (list (string * Difference)) :=
  fold_left (compare_step puppetfile_modules) forge_modules (Some []).

(** [s.replace('/', '-')] *)
Fixpoint replace_slash (s : string) : string :=
  match s with
  | EmptyString => EmptyString
  | String c r => String (if Ascii.eqb c "/"%char then "-"%char else c) (replace_slash r)
  end.

(** [puppet_tag != forge_version] with [forge_version] a [str] or [None]. *)
Definition str_ne (a : string) (b : option string) : bool :=
  match b with Some b' => negb (String.eqb a b') | None => true end.

(** The body of the loop over [forge_deps]: [(dependency_lines, debug
    prints, module_has_errors)]. *)
Definition check_dependency (verbose outdated : bool) (puppet_deps : list (string * string))
    (st : list DepLine * list Msg * bool) (dep : Dependency) : list DepLine * list Msg * bool :=
  let '(lines, dbg, module_has_errors) := st in
  let dep_name0 := replace_slash (dep_name dep) in
  let dep_version := version_requirement dep in
  match dict_get dep_name0 puppet_deps with
  | None =>
      (lines ++ [DL_NotFound dep_name0 dep_version outdated],
       dbg ++ (if verbose then [MsgDebugNotFound dep_name0] else []), true)
  | Some puppet_dep_version =>
      if negb (compare_versions puppet_dep_version dep_version) then
        (lines ++ [DL_Invalid dep_name0 dep_version puppet_dep_version],
         dbg ++ (if verbose then [MsgDebugInvalid dep_name0] else []), true)
      else (lines ++ [DL_Ok dep_name0 dep_version], dbg, module_has_errors)
  end.

(** What the loop body of [print_differences] computes for one module. *)
Record Diagnostic := mkDiagnostic {
  dg_module : string;
  dg_puppet_tag : string;
  dg_forge_version : option string;
  dg_outdated : bool;
  dg_lines : list DepLine;
  dg_debug : list Msg;
  dg_has_errors : bool
}.

Definition module_report (verbose : bool) (puppetfile_modules : ModuleData)
    (module : string) (diff : Difference) : Diagnostic :=
  let p_tag := puppet_tag diff in
  let f_version := diff_module_endpoint_version diff in
  let outdated := str_ne p_tag f_version in
  let puppet_deps := map (fun '(k, v) => (k, tag v)) puppetfile_modules in
  let '(lines, dbg, module_has_errors) :=
    fold_left (check_dependency verbose outdated puppet_deps) (forge_dependencies diff)
      ([], [], false) in
  mkDiagnostic module p_tag f_version outdated lines dbg module_has_errors.

Definition nonempty_list {A} (l : list A) : bool :=
  match l with [] => false | _ => true end.

(** The prints of one module, [has_errors] being the flag after it. *)
Definition print_module (verbose print_all has_errors : bool) (dg : Diagnostic) : list Msg :=
  dg_debug dg ++
  if dg_has_errors dg || dg_outdated dg || print_all then
    [MsgModule (dg_module dg); MsgPuppetTag (dg_puppet_tag dg);
     MsgForgeVersion (dg_forge_version dg) (dg_outdated dg)]
    ++ (if nonempty_list (dg_lines dg) || print_all
        then MsgDepsHeader :: map MsgDep (dg_lines dg) else [])
    ++ [MsgSeparator]
    ++ (if verbose then [MsgDebugModule (dg_has_errors dg) (dg_outdated dg);
                         MsgDebugHasErrors has_errors] else [])
  else [].

(** [print_differences]: its prints and [has_errors]. *)
Definition print_differences (module_differences : list (string * Difference))
    (puppetfile_modules : ModuleData) (verbose print_all : bool) : list Msg * bool :=
  fold_left (fun '(out, has_errors) '(module, diff) =>
               let dg := module_report verbose puppetfile_modules module diff in
               let has_errors' := has_errors || dg_has_errors dg in
               (out ++ print_module verbose print_all has_errors' dg, has_errors'))
    module_differences ([], false).

(** ** [main] *)

Record Args := mkArgs { puppetfile_path : string; verbose : bool; print_all : bool }.

Definition default_args : Args := mkArgs "Puppetfile" false false.

Inductive ParsedArgs := PA_ok (a : Args) | PA_help | PA_error.

(** [parser.parse_args()] for the three declared arguments: the optional
    positional [puppetfile_path] (default ["Puppetfile"]), [-v/--verbose],
    [-a/--print-all], [-h/--help] and the [--] separator. argparse's
    abbreviated long options and grouped short flags are not modelled: they
    are errors here. *)
Fixpoint parse_args_from (toks : list string) (a : Args) (pos_seen only_pos : bool)
    : ParsedArgs :=
  match toks with
  | [] => PA_ok a
  | t :: rest =>
      let positional :=
        if pos_seen then PA_error
        else parse_args_from rest (mkArgs t (verbose a) (print_all a)) true only_pos in
      if only_pos then positional
      else if String.eqb t "--" then parse_args_from rest a pos_seen true
      else if String.eqb t "-h" || String.eqb t "--help" then PA_help
      else if String.eqb t "-v" || String.eqb t "--verbose" then
        parse_args_from rest (mkArgs (puppetfile_path a) true (print_all a)) pos_seen only_pos
      else if String.eqb t "-a" || String.eqb t "--print-all" then
        parse_args_from rest (mkArgs (puppetfile_path a) (verbose a) true) pos_seen only_pos
      else if String.prefix "-" t && Nat.ltb 1 (String.length t) then PA_error
      else positional
  end.

Definition parse_args (argv : list string) : ParsedArgs :=
  parse_args_from argv default_args false false.

(** The world a run sees: [sys.argv[1:]], the output of
    [git diff --name-only HEAD Puppetfile], the file system and the Forge. *)
Record World := mkWorld {
  argv : list string;
  changed_files : list string;
  fs : string -> FsEntry;
  forge : Forge
}.

Record RunResult := mkResult { out : list Msg; requests : list Request; exit_code : Z }.

Definition main (w : World) : RunResult :=
  match parse_args (argv w) with
  | PA_error => mkResult [MsgUsageError] [] 2
  | PA_help => mkResult [MsgHelp] [] 0
  | PA_ok args =>
      if existsb (String.eqb "Puppetfile") (changed_files w) || print_all args then
        let puppetfile_path := "Puppetfile"%string in
        let '(out1, puppetfile_modules) := parse_r10k_puppetfile (fs w) puppetfile_path in
        let fetched := get_current_release_and_metadata (forge w) puppetfile_modules in
        let forge_modules := f_val fetched in
        match compare_modules puppetfile_modules forge_modules with
        | None => mkResult (out1 ++ f_out fetched ++ [MsgTraceback]) (f_reqs fetched) 1
        | Some module_differences =>
            let '(out3, has_errors) :=
              print_differences module_differences puppetfile_modules
                (verbose args) (print_all args) in
            let out0 := out1 ++ f_out fetched ++ out3 in
            if has_errors && negb (print_all args)
            then mkResult (out0 ++ [MsgDependencyErrors]) (f_reqs fetched) 1
            else mkResult (out0 ++ [MsgValid]) (f_reqs fetched) 0
        end
      else mkResult [MsgNoChanges] [] 0
  end.

(** The pipeline after parsing, as [main] runs it. *)
Definition diagnostics (frg : Forge) (verbose0 : bool) (md : ModuleData) : list Diagnostic :=
  match compare_modules md (f_val (get_current_release_and_metadata frg md)) with
  | Some diffs => map (fun '(m, d) => module_report verbose0 md m d) diffs
  | None => []
  end.

(** ** Reading of the spec: comparator clauses *)

(** The operators the spec lists: [>=], [<=], [>], [<], [=]. *)
Definition recognized (op : string) : bool :=
  String.eqb op ">=" || String.eqb op ">" || String.eqb op "<=" || String.eqb op "<"
  || String.eqb op "=".

Definition op_ok (op : string) (c : comparison) : bool :=
  if String.eqb op ">=" then match c with Lt => false | _ => true end
  else if String.eqb op ">" then match c with Gt => true | _ => false end
  else if String.eqb op "<=" then match c with Gt => false | _ => true end
  else if String.eqb op "<" then match c with Lt => true | _ => false end
  else match c with Eq => true | _ => false end.

(** A clause [op ver] holds of [v] under semantic-version comparison; an
    operand that does not parse makes it fail. *)
Definition clause_holds (v op ver : string) : bool :=
  match semver_compare v ver with
  | Some c => op_ok op c
  | None => false
  end.

Local Open Scope string_scope.

(** ** Example inputs *)

Definition ex_forge : Forge :=
  mkForge (fun slug => if String.eqb slug "a-1.0.0" then Some (mkRelease (Some "1.0.0") [mkDep "x/b" ">=1.0.0"]) else None)
          (fun n => if String.eqb n "a" then Some (mkModuleDoc (Some "1.0.0")) else None).
Definition ex_file : string := "mod 'a', :git => 'https://github.com/x/a', :tag => 'v1.0.0'
mod 'x-b', :git => 'https://gitlab.com/x/b', :tag => '0.9.0'
mod 'c', :git => 'https://github.com/x/c', :tag => 'vfoo'
".
Definition ex_world (args : list string) := mkWorld args ["Puppetfile"] (fun p => if String.eqb p "Puppetfile" then FsFile ex_file else FsMissing) ex_forge.

(** What one line adds to [invalid_tags]. *)
Definition invalid_of_line (line : string) : list (string * string) :=
  match search_line (strip line) with
  | Some (n, _, raw) => if is_valid_semver (strip_v raw) then [] else [(n, strip_v raw)]
  | None => []
  end.

Definition line_c_bad : string := "mod 'c', :git => 'https://github.com/x/c', :tag => 'vfoo'".
Definition line_c_good : string := "mod 'c', :git => 'https://github.com/x/c', :tag => 'v2.0.0'".

Definition line_c_good' : string := "mod 'c', :git => 'https://github.com/y/c', :tag => 'V3.0.0'".

(** The Forge name a module is published under (the rename of
    [get_forge_module_data]). *)
Definition forge_name (m : string) : string :=
  if String.eqb m "puppet-resource_tree" then "jake-resource_tree" else m.

Definition trusted (d : ModuleEntry) : bool := String.prefix "https://github.com/" (git_url d).

(** The results [get_current_release_and_metadata] keeps. *)
Definition kept (xs : list (string * option ForgeInfo)) : list (string * ForgeInfo) :=
  flat_map (fun '(m, o) => match o with Some i => [(m, i)] | None => [] end) xs.

(** The record [compare_modules] builds for a fetched module. *)
Definition difference_of (item : string * ForgeInfo) : string * Difference :=
  let (m, i) := item in
  (m, mkDiff (fi_tag i) (current_version i) (dependencies i) (module_endpoint_version i)).

(** How one Forge dependency is classified against the Puppetfile. *)
Definition dep_line (md : ModuleData) (outdated : bool) (dep : Dependency) : DepLine :=
  let n := replace_slash (dep_name dep) in
  match dict_get n md with
  | None => DL_NotFound n (version_requirement dep) outdated
  | Some e =>
      if compare_versions (tag e) (version_requirement dep)
      then DL_Ok n (version_requirement dep)
      else DL_Invalid n (version_requirement dep) (tag e)
  end.

Definition is_error_line (l : DepLine) : bool :=
  match l with DL_Ok _ _ => false | _ => true end.

Definition ex_forge_outdated : Forge :=
  mkForge (releases_api ex_forge)
          (fun n => if String.eqb n "a" then Some (mkModuleDoc (Some "2.0.0")) else None).

Definition ex_file_ok : string :=
  "mod 'a', :git => 'https://github.com/x/a', :tag => '1.0.0'
mod 'x-b', :git => 'https://gitlab.com/x/b', :tag => '1.5.0'
".

Definition world_outdated_only : World :=
  mkWorld [] ["Puppetfile"] (fun p => if String.eqb p "Puppetfile" then FsFile ex_file_ok else FsMissing)
    ex_forge_outdated.

Definition world_missing : World := mkWorld [] ["Puppetfile"] (fun _ => FsMissing) ex_forge.

Definition ex_forge_build : Forge :=
  mkForge (releases_api ex_forge)
          (fun n => if String.eqb n "a" then Some (mkModuleDoc (Some "1.0.0+build.7")) else None).

Definition ex_manifest : ModuleData := fst (parse_lines (file_lines ex_file)).

Definition ex_diag : Diagnostic :=
  hd (mkDiagnostic "" "" None false [] [] false) (diagnostics ex_forge_build false ex_manifest).

Definition ex_pre : ModuleData := [("a", mkEntry "1.0.0" "https://github.com/x/a")].
Definition ex_post : ModuleData := [].

Definition world_moved_manifest : World :=
  mkWorld ["-a"; "manifests/Puppetfile"] []
    (fun p => if String.eqb p "manifests/Puppetfile" then FsFile ex_file else FsMissing) ex_forge.

(** * Properties *)

Example t1 : compare_versions "2.1.0" ">=2.0.0" = true. Proof. vm_compute. reflexivity. Qed.
Example t2 : compare_versions "1.9.0" ">=2.0.0" = false. Proof. vm_compute. reflexivity. Qed.
Example t3 : compare_versions "2.0.0" ">=1.0.0 <3.0.0" = true. Proof. vm_compute. reflexivity. Qed.
Example t4 : compare_versions "2.0.0" "not-a-version" = false. Proof. vm_compute. reflexivity. Qed.
Example t5 : compare_versions "2.0.0" "==1.0" = true. Proof. vm_compute. reflexivity. Qed.
Example t6 : findall ">= 4.13.1 < 10.0.0" = [(">=", "4.13.1"); ("<", "10.0.0")]%string. Proof. vm_compute. reflexivity. Qed.
Example t7 : semver_compare "1.0.0-alpha" "1.0.0-alpha.1" = Some Lt. Proof. vm_compute. reflexivity. Qed.
Example t8 : semver_compare "1.0.0-rc.1" "1.0.0" = Some Lt. Proof. vm_compute. reflexivity. Qed.
Example t9 : is_valid_semver "01.0.0" = false. Proof. vm_compute. reflexivity. Qed.
Example t10 : is_valid_semver "1.0.0-0a.1+b.2" = true. Proof. vm_compute. reflexivity. Qed.
Example t11 : search_line (strip "  mod 'puppetlabs-stdlib', :git => 'https://github.com/puppetlabs/puppetlabs-stdlib', :tag => 'v9.4.1'  ")
  = Some ("puppetlabs-stdlib", "https://github.com/puppetlabs/puppetlabs-stdlib", "v9.4.1")%string.
Proof. vm_compute. reflexivity. Qed.
Example t12 : strip_v "vv1.0.0" = "v1.0.0"%string /\ strip_v "V1.0.0" = "1.0.0"%string. Proof. vm_compute. auto. Qed.

(** ** The constraint evaluator *)

Lemma check_requirements_cons (v op ver : string) (rest : list (string * string)) :
  check_requirements v ((op, ver) :: rest) =
  if recognized op then clause_holds v op ver && check_requirements v rest
  else check_requirements v rest.
Proof.
  simpl. unfold recognized, clause_holds, op_ok.
  destruct (String.eqb op ">="), (String.eqb op ">"), (String.eqb op "<="),
    (String.eqb op "<"), (String.eqb op "="); simpl;
    destruct (semver_compare v ver) as [[]|]; reflexivity.
Qed.

Lemma check_requirements_forallb (v : string) (cs : list (string * string)) :
  check_requirements v cs =
  forallb (fun '(op, ver) => negb (recognized op) || clause_holds v op ver) cs.
Proof.
  induction cs as [|[op ver] cs IH]; [reflexivity|].
  rewrite check_requirements_cons, IH. simpl.
  destruct (recognized op); reflexivity.
Qed.

Lemma check_requirements_iff (v : string) (cs : list (string * string)) :
  check_requirements v cs = true <->
  (forall op ver, In (op, ver) cs -> recognized op = true -> clause_holds v op ver = true).
Proof.
  rewrite check_requirements_forallb, forallb_forall. split.
  - intros H op ver Hin Hr. specialize (H _ Hin). simpl in H.
    rewrite Hr in H. exact H.
  - intros H [op ver] Hin. simpl.
    destruct (recognized op) eqn:Hr; [|reflexivity].
    simpl. exact (H _ _ Hin Hr).
Qed.

Lemma check_requirements_filter (v : string) (cs : list (string * string)) :
  check_requirements v cs = check_requirements v (filter (fun '(op, _) => recognized op) cs).
Proof.
  induction cs as [|[op ver] cs IH]; [reflexivity|].
  simpl filter. destruct (recognized op) eqn:Hr;
    rewrite check_requirements_cons, Hr, IH; [rewrite check_requirements_cons, Hr|]; reflexivity.
Qed.

Lemma compare_versions_clauses (v req : string) :
  findall req <> [] -> compare_versions v req = check_requirements v (findall req).
Proof.
  intros H. unfold compare_versions. destruct (findall req); [congruence|reflexivity].
Qed.

(** When the requirement has comparator clauses, [compare_versions] holds
    exactly when every clause with one of the operators [>=], [>], [<=],
    [<], [=] holds under semantic-version comparison (a logical AND), and
    the spec's three sample evaluations come out as stated. *)
Theorem recognized_clauses_conjunctive (v req : string) (H : findall req <> []) :
  (compare_versions v req = true <->
   (forall op ver, In (op, ver) (findall req) -> recognized op = true ->
                   clause_holds v op ver = true))
  /\ compare_versions "2.1.0" ">=2.0.0" = true
  /\ compare_versions "1.9.0" ">=2.0.0" = false
  /\ compare_versions "2.0.0" ">=1.0.0 <3.0.0" = true.
Proof.
  split; [|vm_compute; auto].
  rewrite compare_versions_clauses by exact H. apply check_requirements_iff.
Qed.

Lemma recognized_clauses_conjunctive_witness :
  findall ">=1.0.0 <3.0.0" <> [] /\
  (compare_versions "2.0.0" ">=1.0.0 <3.0.0" = true <->
   (forall op ver, In (op, ver) (findall ">=1.0.0 <3.0.0") -> recognized op = true ->
                   clause_holds "2.0.0" op ver = true)).
Proof.
  assert (H : findall ">=1.0.0 <3.0.0" <> []) by (vm_compute; discriminate).
  split; [exact H|].
  exact (proj1 (recognized_clauses_conjunctive "2.0.0" ">=1.0.0 <3.0.0" H)).
Defined.

(** C3 fails for clauses whose operator token is not one of [>=], [>],
    [<=], [<], [=] (such as [==]): the scanner finds them but no branch
    evaluates them, so a requirement made only of such clauses is satisfied
    by every version, and [2.0.0] satisfies [>=1.0.0 ==9.9.9] although its
    clause [==9.9.9] does not hold. *)
Theorem C3_unevaluated_clause_passes (v req : string) (H : findall req <> [])
    (Hu : forall op ver, In (op, ver) (findall req) -> recognized op = false) :
  compare_versions v req = true
  /\ findall ">=1.0.0 ==9.9.9" = [(">=", "1.0.0"); ("==", "9.9.9")]
  /\ clause_holds "2.0.0" "==" "9.9.9" = false
  /\ compare_versions "2.0.0" ">=1.0.0 ==9.9.9" = true.
Proof.
  split; [|vm_compute; repeat split].
  rewrite compare_versions_clauses by exact H. rewrite check_requirements_filter.
  assert (G : forall cs : list (string * string),
              (forall op ver, In (op, ver) cs -> recognized op = false) ->
              filter (fun '(op, _) => recognized op) cs = []).
  { induction cs as [|[op ver] cs IH]; intros Hc; [reflexivity|].
    simpl. rewrite (Hc op ver (or_introl eq_refl)).
    apply IH. intros op' ver' Hin. exact (Hc op' ver' (or_intror Hin)). }
  rewrite (G _ Hu). reflexivity.
Qed.

Lemma C3_unevaluated_clause_passes_witness :
  findall "==9.9.9" <> [] /\ compare_versions "0.0.1" "==9.9.9" = true.
Proof.
  assert (H : findall "==9.9.9" <> []) by (vm_compute; discriminate).
  assert (Hu : forall op ver, In (op, ver) (findall "==9.9.9") -> recognized op = false).
  { intros op ver Hin. vm_compute in Hin. destruct Hin as [E|[]].
    inversion E. reflexivity. }
  split; [exact H|].
  exact (proj1 (C3_unevaluated_clause_passes "0.0.1" "==9.9.9" H Hu)).
Defined.

(** C10: a clause the scanner finds whose operator token is not [>=], [>],
    [<=], [<] or [=] (such as [==1.0.0] or [=>1.0.0]) is skipped: the result
    is that of the recognized clauses alone, so with no other clause it is
    [true]. *)
Theorem C10_unrecognized_operator_skipped (v req : string) (H : findall req <> []) :
  compare_versions v req =
    check_requirements v (filter (fun '(op, _) => recognized op) (findall req))
  /\ findall "==1.0.0" = [("==", "1.0.0")] /\ compare_versions "2.0.0" "==1.0.0" = true
  /\ findall "=>1.0.0" = [("=>", "1.0.0")] /\ compare_versions "2.0.0" "=>1.0.0" = true
  /\ compare_versions "2.0.0" ">=1.0.0 ==9.9.9" = true
  /\ compare_versions "2.0.0" ">=3.0.0 ==2.0.0" = false.
Proof.
  split; [|vm_compute; repeat split].
  rewrite compare_versions_clauses by exact H. apply check_requirements_filter.
Qed.

Lemma C10_unrecognized_operator_skipped_witness :
  findall "==1.0.0" <> [] /\
  compare_versions "2.0.0" "==1.0.0" =
    check_requirements "2.0.0" (filter (fun '(op, _) => recognized op) (findall "==1.0.0")).
Proof.
  assert (H : findall "==1.0.0" <> []) by (vm_compute; discriminate).
  split; [exact H|].
  exact (proj1 (C10_unrecognized_operator_skipped "2.0.0" "==1.0.0" H)).
Defined.

(** C4: with no clause the requirement goes to [semver.match] and a
    [ValueError] there gives [false]; but a clause whose operator token is
    not one of the five is never parsed, so [==1.0], whose operand [1.0] is
    not a semantic version, is satisfied by [2.0.0]. *)
Lemma compare_versions_no_clause (v req : string) :
  findall req = [] ->
  compare_versions v req = match semver_match v req with Some b => b | None => false end.
Proof. intros H. unfold compare_versions. rewrite H. reflexivity. Qed.

Theorem C4_unparsed_operand_passes :
  compare_versions "2.0.0" "not-a-version" = false
  /\ compare_versions "2.0.0" "^2.0.0" = false
  /\ findall "==1.0" = [("==", "1.0")]
  /\ parse_version "1.0" = None
  /\ compare_versions "2.0.0" "==1.0" = true.
Proof. vm_compute. repeat split. Qed.

(** ** Parsing the Puppetfile *)

Lemma sub_v_from_later (n : nat) (t : string) : sub_v_from (S n) t = t.
Proof.
  revert n. induction t as [|c t IH]; intros n; [reflexivity|].
  simpl. rewrite IH. reflexivity.
Qed.

Lemma strip_v_eq (t : string) :
  strip_v t = match t with
              | String c r => if Ascii.eqb c "v" || Ascii.eqb c "V" then r else t
              | EmptyString => EmptyString
              end.
Proof.
  destruct t as [|c r]; [reflexivity|].
  unfold strip_v. simpl.
  destruct (Ascii.eqb c "v" || Ascii.eqb c "V"); simpl; rewrite sub_v_from_later; reflexivity.
Qed.

(** C6: normalization removes one leading [v] or [V] and nothing else (so
    [vv...] keeps its second [v]); a line whose tag is [v] or [V] followed by
    a valid semantic version [s] enters the module mapping with tag [s]. *)
Theorem C6_strip_one_v (s : string) (Hs : is_valid_semver s = true) :
  (forall t, strip_v t = match t with
                         | String c r => if Ascii.eqb c "v" || Ascii.eqb c "V" then r else t
                         | EmptyString => EmptyString
                         end)
  /\ strip_v (String "v" s) = s /\ strip_v (String "V" s) = s
  /\ strip_v (String "v" (String "v" s)) = String "v" s
  /\ is_valid_semver (strip_v (String "v" (String "v" s))) = false
  /\ (forall st line n u c, search_line (strip line) = Some (n, u, String c s) ->
        c = "v"%char \/ c = "V"%char ->
        parse_line st line = (dict_set n (mkEntry s u) (fst st), snd st)).
Proof.
  assert (Hv : strip_v (String "v" s) = s) by (rewrite strip_v_eq; reflexivity).
  assert (HV : strip_v (String "V" s) = s) by (rewrite strip_v_eq; reflexivity).
  split; [exact strip_v_eq|]. split; [exact Hv|]. split; [exact HV|].
  split; [rewrite strip_v_eq; reflexivity|]. split.
  - rewrite strip_v_eq. simpl. unfold is_valid_semver, parse_version. reflexivity.
  - intros [md inv] line n u c Hm Hc. unfold parse_line. rewrite Hm.
    assert (Hst : strip_v (String c s) = s) by (destruct Hc; subst; assumption).
    rewrite Hst, Hs. reflexivity.
Qed.

Lemma C6_strip_one_v_witness :
  is_valid_semver "1.2.3" = true /\ strip_v "v1.2.3" = "1.2.3" /\ strip_v "V1.2.3" = "1.2.3".
Proof.
  assert (Hs : is_valid_semver "1.2.3" = true) by (vm_compute; reflexivity).
  split; [exact Hs|].
  destruct (C6_strip_one_v "1.2.3" Hs) as (_ & Hv & HV & _).
  split; [exact Hv | exact HV].
Defined.

Lemma fold_parse_line_invalid (ls : list string) (st : ModuleData * list (string * string)) :
  snd (fold_left parse_line ls st) = (snd st ++ flat_map invalid_of_line ls)%list.
Proof.
  revert st. induction ls as [|line ls IH]; intros [md inv]; simpl.
  - rewrite app_nil_r. reflexivity.
  - rewrite IH. unfold parse_line, invalid_of_line.
    destruct (search_line (strip line)) as [[[n u] raw]|]; simpl; [|reflexivity].
    destruct (is_valid_semver (strip_v raw)); simpl;
      [reflexivity | rewrite <- app_assoc; reflexivity].
Qed.

(** C7 (as the code has it): a line whose stripped tag fails validation
    leaves the mapping as it is and appends [(name, stripped tag)] to
    [invalid_tags]; over a file, [invalid_tags] has one entry per such line,
    in order; [parse_r10k_puppetfile] prints that list and returns only the
    mapping. *)
Theorem C7_invalid_tags_collected (st : ModuleData * list (string * string))
    (line n u raw : string)
    (Hm : search_line (strip line) = Some (n, u, raw))
    (Hinv : is_valid_semver (strip_v raw) = false) :
  parse_line st line = (fst st, (snd st ++ [(n, strip_v raw)])%list)
  /\ (forall ls, snd (parse_lines ls) = flat_map invalid_of_line ls)
  /\ (forall fs0 path c, fs0 path = FsFile c ->
        parse_r10k_puppetfile fs0 path =
          (match flat_map invalid_of_line (file_lines c) with
           | [] => []
           | inv => MsgInvalidHeader :: map (fun '(m, t) => MsgInvalidTag m t) inv
           end, fst (parse_lines (file_lines c)))).
Proof.
  split; [|split].
  - destruct st as [md inv]. unfold parse_line. rewrite Hm, Hinv. reflexivity.
  - intros ls. unfold parse_lines. rewrite fold_parse_line_invalid. reflexivity.
  - intros fs0 path c Hf. unfold parse_r10k_puppetfile. rewrite Hf.
    assert (Hi : snd (parse_lines (file_lines c)) = flat_map invalid_of_line (file_lines c))
      by (unfold parse_lines; rewrite fold_parse_line_invalid; reflexivity).
    destruct (parse_lines (file_lines c)) as [md inv]. simpl in Hi |- *. subst inv.
    destruct (flat_map invalid_of_line (file_lines c)); reflexivity.
Qed.

Lemma C7_invalid_tags_collected_witness :
  search_line (strip line_c_bad) = Some ("c", "https://github.com/x/c", "vfoo")
  /\ is_valid_semver (strip_v "vfoo") = false
  /\ parse_line ([], []) line_c_bad = ([], [("c", "foo")]).
Proof.
  assert (Hm : search_line (strip line_c_bad) = Some ("c", "https://github.com/x/c", "vfoo"))
    by (vm_compute; reflexivity).
  assert (Hinv : is_valid_semver (strip_v "vfoo") = false) by (vm_compute; reflexivity).
  split; [exact Hm|]. split; [exact Hinv|].
  exact (proj1 (C7_invalid_tags_collected ([], []) line_c_bad _ _ _ Hm Hinv)).
Defined.

(** C7 fails as stated: the invalid-tags list holds the tag after the [v]
    is stripped, not the tag as written; [parse_r10k_puppetfile] returns no
    such list; and a name with a valid line elsewhere stays in the mapping. *)
Lemma C7_counterexample :
  snd (parse_lines [line_c_bad]) = [("c", "foo")]
  /\ ~ In ("c", "vfoo") (snd (parse_lines [line_c_bad]))
  /\ dict_get "c" (fst (parse_lines [line_c_good; line_c_bad])) =
       Some (mkEntry "2.0.0" "https://github.com/x/c").
Proof.
  vm_compute. split; [reflexivity|]. split; [|reflexivity].
  intros [H|[]]. discriminate H.
Qed.

(** ** Dicts, fetches and the comparison stage *)

Lemma dict_get_In {V} (k : string) (v : V) (d : list (string * V)) :
  dict_get k d = Some v -> In (k, v) d.
Proof.
  induction d as [|[k' v'] d IH]; simpl; [discriminate|].
  destruct (String.eqb k k') eqn:E.
  - apply String.eqb_eq in E. subst. intros H. inversion H. left. reflexivity.
  - intros H. right. exact (IH H).
Qed.

Lemma dict_get_some {V} (k : string) (d : list (string * V)) :
  In k (map fst d) -> exists v, dict_get k d = Some v.
Proof.
  induction d as [|[k' v'] d IH]; simpl; [contradiction|].
  intros Hk. destruct (String.eqb k k') eqn:E; [eauto|].
  apply IH. destruct Hk as [Hk|Hk]; [|exact Hk].
  subst. rewrite String.eqb_refl in E. discriminate.
Qed.

Lemma In_dict_set {V} (k k' : string) (v v' : V) (d : list (string * V)) :
  In (k, v) (dict_set k' v' d) -> (k, v) = (k', v') \/ In (k, v) d.
Proof.
  induction d as [|[k0 v0] d IH]; simpl.
  - intros [H|[]]. left. congruence.
  - destruct (String.eqb k' k0); simpl.
    + intros [H|H]; [left; congruence | right; right; exact H].
    + intros [H|H]; [right; left; exact H|].
      destruct (IH H) as [H'|H']; [left; exact H' | right; right; exact H'].
Qed.

Lemma collect_results_fold (xs : list (string * option ForgeInfo)) acc m info :
  In (m, info) (fold_left (fun results '(module_name, module_result) =>
                   match module_result with
                   | Some r => dict_set module_name r results
                   | None => results
                   end) xs acc) ->
  In (m, info) acc \/ In (m, Some info) xs.
Proof.
  revert acc. induction xs as [|[m' [r|]] xs IH]; intros acc H; simpl in *.
  - left. exact H.
  - destruct (IH _ H) as [H'|H']; [|right; right; exact H'].
    destruct (In_dict_set _ _ _ _ _ H') as [E|E]; [|left; exact E].
    inversion E. subst. right. left. reflexivity.
  - destruct (IH _ H) as [H'|H']; [left; exact H' | right; right; exact H'].
Qed.

(** The Forge's answer for a fetched module. *)
Lemma fetch_module_data_some frg m d m' info :
  f_val (fetch_module_data frg (m, d)) = (m', Some info) ->
  m' = m /\ String.prefix "https://github.com/" (git_url d) = true /\ fi_tag info = tag d /\
  exists mdoc, modules_api frg (if String.eqb m "puppet-resource_tree"
                               then "jake-resource_tree" else m) = Some mdoc /\
               module_endpoint_version info = current_release_version mdoc.
Proof.
  unfold fetch_module_data.
  destruct (String.prefix "https://github.com/" (git_url d)); simpl; [|discriminate].
  unfold get_forge_release_data, get_forge_module_data.
  set (slug := if String.eqb m "puppet-resource_tree" then _ else _).
  set (name := if String.eqb m "puppet-resource_tree" then "jake-resource_tree" else m).
  destruct (releases_api frg slug); destruct (modules_api frg name) as [mdoc|] eqn:Em;
    simpl; intros H; inversion H; subst; repeat split; eauto.
Qed.

Lemma fetch_module_data_key frg m d : fst (f_val (fetch_module_data frg (m, d))) = m.
Proof.
  unfold fetch_module_data.
  destruct (String.prefix "https://github.com/" (git_url d)); simpl; [|reflexivity].
  destruct (f_val (get_forge_release_data frg _)), (f_val (get_forge_module_data frg m));
    reflexivity.
Qed.

Lemma results_In frg md m info :
  In (m, info) (f_val (get_current_release_and_metadata frg md)) ->
  exists d, In (m, d) md /\ f_val (fetch_module_data frg (m, d)) = (m, Some info).
Proof.
  simpl. unfold collect_results. intros H.
  destruct (collect_results_fold _ _ _ _ H) as [[]|H'].
  rewrite map_map, in_map_iff in H'. destruct H' as [[m0 d] [E Hin]].
  pose proof (fetch_module_data_key frg m0 d) as K. rewrite E in K. simpl in K. subst.
  exists d. split; assumption.
Qed.

Lemma compare_step_none md fm : fold_left (compare_step md) fm None = None.
Proof. induction fm as [|[m i] fm IH]; [reflexivity | exact IH]. Qed.

Lemma compare_fold_In md fm acc diffs m diff :
  fold_left (compare_step md) fm acc = Some diffs -> In (m, diff) diffs ->
  (exists ds, acc = Some ds /\ In (m, diff) ds) \/
  exists info e, In (m, info) fm /\ dict_get m md = Some e /\
    diff = mkDiff (tag e) (current_version info) (dependencies info) (module_endpoint_version info).
Proof.
  revert acc. induction fm as [|[m0 info0] fm IH]; intros acc; simpl.
  - intros H Hin. left. exists diffs. split; assumption.
  - intros H Hin. destruct (IH _ H Hin) as [(ds & Hacc & Hds) | (info & e & Hi & He & Hd)].
    + destruct acc as [ds0|]; [|discriminate]. simpl in Hacc.
      destruct (dict_get m0 md) as [e|] eqn:Eg; [|discriminate].
      inversion Hacc. subst ds.
      destruct (In_dict_set _ _ _ _ _ Hds) as [E|E].
      * inversion E. subst. right. exists info0, e. split; [left; reflexivity|].
        split; [exact Eg|].
        destruct (match current_version info0 with Some v => _ | None => true end); reflexivity.
      * left. exists ds0. split; [reflexivity | exact E].
    + right. exists info, e. split; [right; exact Hi|]. split; assumption.
Qed.

Lemma compare_modules_In md fm diffs m diff :
  compare_modules md fm = Some diffs -> In (m, diff) diffs ->
  exists info e, In (m, info) fm /\ dict_get m md = Some e /\
    diff = mkDiff (tag e) (current_version info) (dependencies info) (module_endpoint_version info).
Proof.
  intros H Hin. destruct (compare_fold_In _ _ _ _ _ _ H Hin) as [(ds & E & Hds)|R]; [|exact R].
  inversion E. subst. contradiction.
Qed.

Lemma compare_modules_total md fm :
  (forall m info, In (m, info) fm -> In m (map fst md)) -> compare_modules md fm <> None.
Proof.
  unfold compare_modules. generalize (@nil (string * Difference)) as ds.
  induction fm as [|[m0 info0] fm IH]; simpl; intros ds Hk; [discriminate|].
  destruct (dict_get_some m0 md (Hk _ _ (or_introl eq_refl))) as [e Ee]. rewrite Ee.
  apply IH. intros m info Hi. exact (Hk _ _ (or_intror Hi)).
Qed.

Lemma compare_modules_results frg md :
  compare_modules md (f_val (get_current_release_and_metadata frg md)) <> None.
Proof.
  apply compare_modules_total. intros m info Hi.
  destruct (results_In _ _ _ _ Hi) as [d [Hin _]].
  apply in_map_iff. exists (m, d). split; [reflexivity | exact Hin].
Qed.

Lemma module_report_fields vb md m diff :
  dg_module (module_report vb md m diff) = m /\
  dg_puppet_tag (module_report vb md m diff) = puppet_tag diff /\
  dg_forge_version (module_report vb md m diff) = diff_module_endpoint_version diff /\
  dg_outdated (module_report vb md m diff) =
    str_ne (puppet_tag diff) (diff_module_endpoint_version diff).
Proof.
  unfold module_report. destruct (fold_left _ _ _) as [[lines dbg] mhe]. repeat split.
Qed.

Lemma print_differences_fold diffs md vb pa out h :
  snd (fold_left (fun '(out, has_errors) '(module, diff) =>
            let dg := module_report vb md module diff in
            let has_errors' := has_errors || dg_has_errors dg in
            ((out ++ print_module vb pa has_errors' dg)%list, has_errors'))
          diffs (out, h)) =
  h || existsb (fun '(m, d) => dg_has_errors (module_report vb md m d)) diffs.
Proof.
  revert out h. induction diffs as [|[m d] diffs IH]; intros out h; simpl.
  - rewrite orb_false_r. reflexivity.
  - rewrite IH, orb_assoc. reflexivity.
Qed.

Lemma print_differences_has_errors diffs md vb pa :
  snd (print_differences diffs md vb pa) =
  existsb (fun '(m, d) => dg_has_errors (module_report vb md m d)) diffs.
Proof. unfold print_differences. apply print_differences_fold. Qed.

(** ** Runs of [main] *)

(** C1 (as the code has it): when the check runs and [./Puppetfile] cannot
    be opened, the open error is printed once, no module is fetched or
    reported, the run prints that the dependencies are valid and exits 0. *)
Theorem C1_unreadable_manifest_exits_zero (w : World) (args : Args)
    (Ha : parse_args (argv w) = PA_ok args)
    (Hrun : existsb (String.eqb "Puppetfile") (changed_files w) || print_all args = true) :
  (fs w "Puppetfile" = FsMissing -> main w = mkResult [MsgNotFound "Puppetfile"; MsgValid] [] 0)
  /\ (forall e, fs w "Puppetfile" = FsError e -> main w = mkResult [MsgError e; MsgValid] [] 0).
Proof.
  split; [intros Hf | intros e Hf]; unfold main; rewrite Ha, Hrun;
    unfold parse_r10k_puppetfile; rewrite Hf; reflexivity.
Qed.

Lemma C1_unreadable_manifest_exits_zero_witness :
  main world_missing = mkResult [MsgNotFound "Puppetfile"; MsgValid] [] 0.
Proof.
  assert (Ha : parse_args (argv world_missing) = PA_ok default_args) by (vm_compute; reflexivity).
  assert (Hrun : existsb (String.eqb "Puppetfile") (changed_files world_missing)
                 || print_all default_args = true) by (vm_compute; reflexivity).
  assert (Hf : fs world_missing "Puppetfile" = FsMissing) by reflexivity.
  exact (proj1 (C1_unreadable_manifest_exits_zero world_missing default_args Ha Hrun) Hf).
Defined.

(** C1 fails as stated: a missing Puppetfile does not give a non-zero exit. *)
Lemma C1_counterexample :
  fs world_missing "Puppetfile" = FsMissing /\ exit_code (main world_missing) = 0%Z.
Proof. vm_compute. split; reflexivity. Qed.

(** C2 fails as stated: in print-all mode a violated dependency constraint
    is reported and the run still exits 0. *)
Lemma C2_counterexample :
  In (MsgDep (DL_Invalid "x-b" ">=1.0.0" "0.9.0")) (out (main (ex_world ["-a"])))
  /\ exit_code (main (ex_world ["-a"])) = 0%Z.
Proof. vm_compute. split; [repeat (try (left; reflexivity); right) | reflexivity]. Qed.

(** C5: the outdated flag of every reported module is the string inequality
    of its normalized Puppetfile tag and the version the module endpoint
    ([/v3/modules/{name}]) reports as current; a tag and a current version
    that differ only in build metadata, equal under semver comparison, make
    the module outdated. *)
Theorem C5_outdated_by_string_inequality (frg : Forge) (vb : bool) (md : ModuleData)
    (dg : Diagnostic) (H : In dg (diagnostics frg vb md)) :
  dg_outdated dg = str_ne (dg_puppet_tag dg) (dg_forge_version dg)
  /\ (exists e, dict_get (dg_module dg) md = Some e /\ dg_puppet_tag dg = tag e)
  /\ (exists mdoc,
        modules_api frg (if String.eqb (dg_module dg) "puppet-resource_tree"
                         then "jake-resource_tree" else dg_module dg) = Some mdoc
        /\ dg_forge_version dg = current_release_version mdoc)
  /\ str_ne "1.2.0" (Some "1.2.0+build.7") = true
  /\ semver_compare "1.2.0" "1.2.0+build.7" = Some Eq
  /\ str_ne "1.2.0" (Some "1.2.0-rc.1") = true.
Proof.
  unfold diagnostics in H.
  destruct (compare_modules md (f_val (get_current_release_and_metadata frg md)))
    as [diffs|] eqn:Ec; [|contradiction].
  apply in_map_iff in H. destruct H as [[m diff] [Hdg Hin]]. subst dg.
  destruct (module_report_fields vb md m diff) as (Fm & Ft & Fv & Fo).
  rewrite Fm, Ft, Fv, Fo.
  destruct (compare_modules_In _ _ _ _ _ Ec Hin) as (info & e & Hi & He & Hd). subst diff.
  destruct (results_In _ _ _ _ Hi) as (d & _ & Hf).
  destruct (fetch_module_data_some _ _ _ _ _ Hf) as (_ & _ & _ & mdoc & Hm & Hv).
  split; [reflexivity|]. split; [exists e; split; [exact He | reflexivity]|].
  split; [exists mdoc; split; [exact Hm | exact Hv]|].
  vm_compute. repeat split.
Qed.

Lemma C5_outdated_by_string_inequality_witness :
  In ex_diag (diagnostics ex_forge_build false ex_manifest) /\ dg_outdated ex_diag = true.
Proof.
  assert (H : In ex_diag (diagnostics ex_forge_build false ex_manifest))
    by (vm_compute; left; reflexivity).
  split; [exact H|].
  rewrite (proj1 (C5_outdated_by_string_inequality _ _ _ _ H)). vm_compute. reflexivity.
Defined.

Local Open Scope list_scope.

Lemma get_current_release_drop frg pre post m d :
  String.prefix "https://github.com/" (git_url d) = false ->
  get_current_release_and_metadata frg (pre ++ (m, d) :: post) =
  get_current_release_and_metadata frg (pre ++ post).
Proof.
  intros Hu.
  assert (Hf : fetch_module_data frg (m, d) = mkFetched [] [] (m, None))
    by (unfold fetch_module_data; rewrite Hu; reflexivity).
  unfold get_current_release_and_metadata, collect_results.
  rewrite !map_app. cbn [map]. rewrite Hf, !flat_map_app. cbn [flat_map f_out f_reqs app].
  rewrite !fold_left_app. reflexivity.
Qed.

(** C8: a module whose [git_url] is not on [https://github.com/] is not
    fetched (no request, no output), the fetch stage is exactly that of the
    Puppetfile without it, it gets no diagnostic, and the verdict is the
    disjunction of the other modules' errors (it stays available only as a
    Puppetfile entry that dependencies are looked up in). *)
Theorem C8_untrusted_source_skipped (frg : Forge) (vb pa : bool)
    (pre post : ModuleData) (m : string) (d : ModuleEntry)
    (Hu : String.prefix "https://github.com/" (git_url d) = false)
    (Hk : ~ In m (map fst (pre ++ post))) :
  fetch_module_data frg (m, d) = mkFetched [] [] (m, None)
  /\ get_current_release_and_metadata frg (pre ++ (m, d) :: post) =
     get_current_release_and_metadata frg (pre ++ post)
  /\ (forall dg, In dg (diagnostics frg vb (pre ++ (m, d) :: post)) -> dg_module dg <> m)
  /\ (forall diffs,
        compare_modules (pre ++ (m, d) :: post)
          (f_val (get_current_release_and_metadata frg (pre ++ (m, d) :: post))) = Some diffs ->
        snd (print_differences diffs (pre ++ (m, d) :: post) vb pa) =
        existsb dg_has_errors (diagnostics frg vb (pre ++ (m, d) :: post))).
Proof.
  pose proof (get_current_release_drop frg pre post m d Hu) as Hdrop.
  split; [unfold fetch_module_data; rewrite Hu; reflexivity|].
  split; [exact Hdrop|]. split.
  - intros dg H. unfold diagnostics in H.
    destruct (compare_modules _ _) as [diffs|] eqn:Ec; [|contradiction].
    apply in_map_iff in H. destruct H as [[m' diff] [Hdg Hin]]. subst dg.
    rewrite (proj1 (module_report_fields _ _ _ _)).
    destruct (compare_modules_In _ _ _ _ _ Ec Hin) as (info & _ & Hi & _).
    rewrite Hdrop in Hi. destruct (results_In _ _ _ _ Hi) as (d' & Hin' & _).
    intros E. subst m'. apply Hk. apply in_map_iff. exists (m, d'). split; [reflexivity | exact Hin'].
  - intros diffs Ec. rewrite print_differences_has_errors.
    unfold diagnostics. rewrite Ec. clear.
    induction diffs as [|[m' diff] diffs IH]; simpl; [reflexivity|]. rewrite IH. reflexivity.
Qed.

Lemma C8_untrusted_source_skipped_witness :
  fetch_module_data ex_forge ("x-b", mkEntry "0.9.0" "https://gitlab.com/x/b") =
  mkFetched [] [] ("x-b", None).
Proof.
  assert (Hu : String.prefix "https://github.com/" (git_url (mkEntry "0.9.0" "https://gitlab.com/x/b")) = false)
    by (vm_compute; reflexivity).
  assert (Hk : ~ In "x-b" (map fst (ex_pre ++ ex_post)))
    by (vm_compute; intros [H|[]]; discriminate H).
  exact (proj1 (C8_untrusted_source_skipped ex_forge false false ex_pre ex_post "x-b" _ Hu Hk)).
Defined.

(** C9: the optional positional argument is accepted, with default
    ["Puppetfile"], but [main] reads [./Puppetfile] whatever it says: the run
    depends on the file system only at ["Puppetfile"], and a Puppetfile given
    as [manifests/Puppetfile] is never read. *)
Theorem C9_path_argument_ignored :
  parse_args [] = PA_ok (mkArgs "Puppetfile" false false)
  /\ parse_args ["manifests/Puppetfile"] = PA_ok (mkArgs "manifests/Puppetfile" false false)
  /\ (forall w fs', fs' "Puppetfile" = fs w "Puppetfile" ->
        main (mkWorld (argv w) (changed_files w) fs' (forge w)) = main w)
  /\ parse_args (argv world_moved_manifest) = PA_ok (mkArgs "manifests/Puppetfile" false true)
  /\ main world_moved_manifest = mkResult [MsgNotFound "Puppetfile"; MsgValid] [] 0.
Proof.
  split; [reflexivity|]. split; [vm_compute; reflexivity|]. split.
  - intros [argv0 ch fs0 frg] fs' H. simpl in H. unfold main. simpl.
    destruct (parse_args argv0); try reflexivity.
    unfold parse_r10k_puppetfile. rewrite H. reflexivity.
  - vm_compute. split; reflexivity.
Qed.

(** * Further properties of the script *)

(** ** Dicts *)

Lemma dict_get_set_same {V} (k : string) (v : V) (d : list (string * V)) :
  dict_get k (dict_set k v d) = Some v.
Proof.
  induction d as [|[k' v'] d IH]; simpl; [rewrite String.eqb_refl; reflexivity|].
  destruct (String.eqb k k') eqn:E; simpl; [rewrite String.eqb_refl; reflexivity|].
  rewrite E. exact IH.
Qed.

Lemma dict_get_set_other {V} (k k' : string) (v : V) (d : list (string * V)) :
  k' <> k -> dict_get k' (dict_set k v d) = dict_get k' d.
Proof.
  intros Hne. assert (E1 : String.eqb k' k = false) by (apply String.eqb_neq; exact Hne).
  induction d as [|[k0 v0] d IH]; simpl; [rewrite E1; reflexivity|].
  destruct (String.eqb k k0) eqn:E; simpl.
  - apply String.eqb_eq in E. subst k0. rewrite E1. reflexivity.
  - destruct (String.eqb k' k0); [reflexivity | exact IH].
Qed.

Lemma dict_set_keys {V} (k : string) (v : V) (d : list (string * V)) :
  map fst (dict_set k v d) = if existsb (String.eqb k) (map fst d) then map fst d
                             else map fst d ++ [k].
Proof.
  induction d as [|[k' v'] d IH]; simpl; [reflexivity|].
  destruct (String.eqb k k') eqn:E; simpl.
  - apply String.eqb_eq in E. subst. reflexivity.
  - rewrite IH. destruct (existsb (String.eqb k) (map fst d)); reflexivity.
Qed.

Lemma existsb_eqb_In (k : string) (l : list string) :
  existsb (String.eqb k) l = true <-> In k l.
Proof.
  rewrite existsb_exists. split.
  - intros [x [Hx E]]. apply String.eqb_eq in E. subst. exact Hx.
  - intros H. exists k. split; [exact H | apply String.eqb_refl].
Qed.

Lemma dict_set_nodup {V} (k : string) (v : V) (d : list (string * V)) :
  NoDup (map fst d) -> NoDup (map fst (dict_set k v d)).
Proof.
  intros H. rewrite dict_set_keys.
  destruct (existsb (String.eqb k) (map fst d)) eqn:E; [exact H|].
  apply NoDup_app; [exact H | constructor; [intros []|constructor] |].
  intros x Hx [Hk|[]]. subst x.
  assert (existsb (String.eqb k) (map fst d) = true) by (apply existsb_eqb_In; exact Hx).
  congruence.
Qed.

Lemma dict_set_forall {V} (P : V -> Prop) (k : string) (v : V) (d : list (string * V)) :
  P v -> Forall (fun kv => P (snd kv)) d -> Forall (fun kv => P (snd kv)) (dict_set k v d).
Proof.
  intros Hv. induction d as [|[k' v'] d IH]; simpl; intros Hd.
  - constructor; [exact Hv | constructor].
  - inversion Hd as [|? ? Hh Ht]; subst.
    destruct (String.eqb k k'); constructor; auto.
Qed.

(** ** The Puppetfile mapping *)

Lemma parse_lines_app (ls : list string) (line : string) :
  parse_lines (ls ++ [line]) = parse_line (parse_lines ls) line.
Proof. unfold parse_lines. rewrite fold_left_app. reflexivity. Qed.

(** The last valid line for a module wins: after a line that declares [n]
    with a tag valid once its [v] is stripped, [n] maps to that line's tag
    and URL, and every other name keeps its entry. *)
Theorem puppetfile_last_line_wins (ls : list string) (line n u raw : string)
    (Hm : search_line (strip line) = Some (n, u, raw))
    (Hv : is_valid_semver (strip_v raw) = true) :
  dict_get n (fst (parse_lines (ls ++ [line]))) = Some (mkEntry (strip_v raw) u)
  /\ (forall n', n' <> n ->
        dict_get n' (fst (parse_lines (ls ++ [line]))) = dict_get n' (fst (parse_lines ls))).
Proof.
  rewrite parse_lines_app. destruct (parse_lines ls) as [md inv]. unfold parse_line.
  rewrite Hm, Hv. simpl. split.
  - apply dict_get_set_same.
  - intros n' Hne. apply dict_get_set_other. exact Hne.
Qed.

Lemma puppetfile_last_line_wins_witness :
  dict_get "c" (fst (parse_lines ([line_c_good] ++ [line_c_good']))) =
  Some (mkEntry "3.0.0" "https://github.com/y/c").
Proof.
  assert (Hm : search_line (strip line_c_good') = Some ("c", "https://github.com/y/c", "V3.0.0"))
    by (vm_compute; reflexivity).
  assert (Hv : is_valid_semver (strip_v "V3.0.0") = true) by (vm_compute; reflexivity).
  exact (proj1 (puppetfile_last_line_wins [line_c_good] line_c_good' _ _ _ Hm Hv)).
Defined.

Lemma parse_fold_invariant (ls : list string) (st : ModuleData * list (string * string)) :
  NoDup (map fst (fst st)) -> Forall (fun kv => is_valid_semver (tag (snd kv)) = true) (fst st) ->
  NoDup (map fst (fst (fold_left parse_line ls st)))
  /\ Forall (fun kv => is_valid_semver (tag (snd kv)) = true) (fst (fold_left parse_line ls st)).
Proof.
  revert st. induction ls as [|line ls IH]; intros [md inv] Hn Hf; simpl; [auto|].
  apply IH; unfold parse_line; simpl in *;
    (destruct (search_line (strip line)) as [[[n u] raw]|]; [|assumption]);
    (destruct (is_valid_semver (strip_v raw)) eqn:Ev; [|assumption]); simpl.
  - apply dict_set_nodup. exact Hn.
  - apply (dict_set_forall (fun e => is_valid_semver (tag e) = true)); [exact Ev | exact Hf].
Qed.

(** The mapping [parse_r10k_puppetfile] returns is a dict: every module name
    appears once, and every tag in it is a valid semantic version. *)
Theorem puppetfile_mapping_wellformed (fs0 : string -> FsEntry) (path : string) :
  NoDup (map fst (snd (parse_r10k_puppetfile fs0 path)))
  /\ Forall (fun kv => is_valid_semver (tag (snd kv)) = true) (snd (parse_r10k_puppetfile fs0 path)).
Proof.
  unfold parse_r10k_puppetfile.
  destruct (fs0 path) as [| e | c]; simpl; [split; constructor | split; constructor |].
  unfold parse_lines. destruct (fold_left parse_line (file_lines c) ([], [])) as [md inv] eqn:E.
  simpl. destruct inv; simpl;
    (pose proof (parse_fold_invariant (file_lines c) ([], []) (NoDup_nil _) (Forall_nil _)) as H;
     rewrite E in H; exact H).
Qed.

(** ** The fetch stage *)

(** A module on GitHub costs two requests, the release slug and the module
    name, both under the same Forge name: [puppet-resource_tree] is looked up
    as [jake-resource_tree] in both. *)
Theorem fetch_requests_use_forge_name (frg : Forge) (m : string) (d : ModuleEntry)
    (Ht : trusted d = true) :
  f_reqs (fetch_module_data frg (m, d)) =
    [ReqRelease (forge_name m ++ "-" ++ tag d)%string; ReqModule (forge_name m)].
Proof.
  unfold trusted in Ht. unfold fetch_module_data, get_forge_release_data, get_forge_module_data, forge_name.
  rewrite Ht. simpl.
  destruct (String.eqb m "puppet-resource_tree");
    (destruct (releases_api frg _), (modules_api frg _); reflexivity).
Qed.

Lemma fetch_requests_use_forge_name_witness :
  f_reqs (fetch_module_data ex_forge ("puppet-resource_tree", mkEntry "1.0.0" "https://github.com/x/rt"))
  = [ReqRelease "jake-resource_tree-1.0.0"; ReqModule "jake-resource_tree"].
Proof.
  assert (Ht : trusted (mkEntry "1.0.0" "https://github.com/x/rt") = true) by (vm_compute; reflexivity).
  exact (fetch_requests_use_forge_name ex_forge "puppet-resource_tree" _ Ht).
Defined.

(** A module's Forge data is kept only when it is on GitHub and both
    endpoints answer; the record holds the Puppetfile tag, the release's
    version and dependencies and the module endpoint's current version.
    Otherwise a GitHub module is reported as skipped. *)
Theorem fetch_result_cases (frg : Forge) (m : string) (d : ModuleEntry) :
  match snd (f_val (fetch_module_data frg (m, d))) with
  | Some info =>
      trusted d = true /\
      exists r mdoc, releases_api frg (forge_name m ++ "-" ++ tag d) = Some r /\
                     modules_api frg (forge_name m) = Some mdoc /\
                     info = mkInfo (tag d) (release_version r) (release_dependencies r)
                                   (current_release_version mdoc)
  | None =>
      trusted d = false \/
      (In (MsgSkipping m) (f_out (fetch_module_data frg (m, d))) /\
       (releases_api frg (forge_name m ++ "-" ++ tag d) = None \/ modules_api frg (forge_name m) = None))
  end.
Proof.
  unfold fetch_module_data, get_forge_release_data, get_forge_module_data, trusted, forge_name.
  destruct (String.prefix "https://github.com/" (git_url d)); simpl; [|left; reflexivity].
  destruct (String.eqb m "puppet-resource_tree"); simpl;
    (destruct (releases_api frg _) as [r|], (modules_api frg _) as [mdoc|]; simpl;
     [ split; [reflexivity | exists r, mdoc; auto]
     | right; split; [solve [repeat (first [left; reflexivity | right])] | auto] .. ]).
Qed.


Lemma dict_set_absent {V} (k : string) (v : V) (d : list (string * V)) :
  ~ In k (map fst d) -> dict_set k v d = d ++ [(k, v)].
Proof.
  induction d as [|[k' v'] d IH]; simpl; intros H; [reflexivity|].
  destruct (String.eqb k k') eqn:E.
  - apply String.eqb_eq in E. subst. exfalso. apply H. left. reflexivity.
  - rewrite IH; [reflexivity|]. intros Hk. apply H. right. exact Hk.
Qed.


Lemma NoDup_dict_get {V} (k : string) (v : V) (d : list (string * V)) :
  NoDup (map fst d) -> In (k, v) d -> dict_get k d = Some v.
Proof.
  induction d as [|[k' v'] d IH]; simpl; intros Hn Hin; [contradiction|].
  inversion Hn as [|? ? Hk Hn']; subst.
  destruct Hin as [E|Hin].
  - inversion E. subst. rewrite String.eqb_refl. reflexivity.
  - destruct (String.eqb k k') eqn:E.
    + apply String.eqb_eq in E. subst. exfalso. apply Hk.
      apply in_map_iff. exists (k', v). split; [reflexivity | exact Hin].
    + exact (IH Hn' Hin).
Qed.

Lemma collect_fold_app (xs : list (string * option ForgeInfo)) acc :
  NoDup (map fst acc ++ map fst xs) ->
  fold_left (fun results '(module_name, module_result) =>
               match module_result with
               | Some r => dict_set module_name r results
               | None => results
               end) xs acc = acc ++ kept xs.
Proof.
  revert acc. induction xs as [|[m [i|]] xs IH]; intros acc H; simpl in *.
  - rewrite app_nil_r. reflexivity.
  - rewrite dict_set_absent.
    + rewrite IH, <- app_assoc; [reflexivity|]. rewrite map_app, <- app_assoc. exact H.
    + intros Hm. apply (NoDup_remove_2 _ _ _ H). apply in_or_app. left. exact Hm.
  - apply IH. exact (NoDup_remove_1 _ _ _ H).
Qed.

Lemma fetch_val_pair frg m d :
  f_val (fetch_module_data frg (m, d)) = (m, snd (f_val (fetch_module_data frg (m, d)))).
Proof.
  rewrite <- (fetch_module_data_key frg m d) at 2. destruct (f_val _); reflexivity.
Qed.

(** The fetch stage keeps the Puppetfile's order: for a Puppetfile dict,
    the results are the modules whose fetch succeeded, in declaration order,
    each once. *)
Theorem fetch_results_in_manifest_order (frg : Forge) (md : ModuleData)
    (H : NoDup (map fst md)) :
  f_val (get_current_release_and_metadata frg md) =
  flat_map (fun '(m, d) => match snd (f_val (fetch_module_data frg (m, d))) with
                           | Some i => [(m, i)]
                           | None => []
                           end) md.
Proof.
  simpl. unfold collect_results. rewrite collect_fold_app.
  - simpl. clear H. induction md as [|[m d] md IH]; [reflexivity|].
    cbn [map flat_map kept]. rewrite fetch_val_pair. fold (kept (map f_val (map (fetch_module_data frg) md))).
    rewrite IH. reflexivity.
  - simpl. replace (map fst (map f_val (map (fetch_module_data frg) md))) with (map fst md);
      [exact H|].
    clear H. induction md as [|[m d] md IH]; [reflexivity|]. cbn [map].
    rewrite fetch_module_data_key, IH. reflexivity.
Qed.

Lemma fetch_results_in_manifest_order_witness :
  f_val (get_current_release_and_metadata ex_forge ex_manifest) =
  [("a", mkInfo "1.0.0" (Some "1.0.0") [mkDep "x/b" ">=1.0.0"] (Some "1.0.0"))].
Proof.
  assert (H : NoDup (map fst ex_manifest)) by (exact (proj1 (parse_fold_invariant (file_lines ex_file) ([], []) (NoDup_nil _) (Forall_nil _)))).
  rewrite (fetch_results_in_manifest_order ex_forge ex_manifest H). vm_compute. reflexivity.
Defined.

(** ** The comparison stage *)

Lemma collect_results_nodup (xs : list (string * option ForgeInfo)) :
  NoDup (map fst (collect_results xs)).
Proof.
  unfold collect_results.
  assert (G : forall acc, NoDup (map fst acc) ->
            NoDup (map fst (fold_left (fun results '(module_name, module_result) =>
               match module_result with
               | Some r => dict_set module_name r results
               | None => results
               end) xs acc))).
  { induction xs as [|[m [i|]] xs IH]; intros acc H; simpl; [exact H | | exact (IH _ H)].
    apply IH. apply dict_set_nodup. exact H. }
  apply G. constructor.
Qed.

Lemma compare_fold_map md fm acc :
  NoDup (map fst acc ++ map fst fm) ->
  (forall m i, In (m, i) fm -> exists e, dict_get m md = Some e /\ tag e = fi_tag i) ->
  fold_left (compare_step md) fm (Some acc) = Some (acc ++ map difference_of fm).
Proof.
  revert acc. induction fm as [|[m i] fm IH]; intros acc Hn Hk; simpl.
  - rewrite app_nil_r. reflexivity.
  - destruct (Hk m i (or_introl eq_refl)) as [e [Ee Et]]. rewrite Ee.
    rewrite dict_set_absent.
    + rewrite IH.
      * rewrite <- app_assoc. simpl. rewrite Et.
        destruct (match current_version i with Some v => _ | None => true end); reflexivity.
      * rewrite map_app, <- app_assoc. exact Hn.
      * intros m' i' Hi. exact (Hk _ _ (or_intror Hi)).
    + intros Hm. apply (NoDup_remove_2 _ _ _ Hn). apply in_or_app. left. exact Hm.
Qed.

(** For a Puppetfile dict, [compare_modules] never raises on the fetch
    results: it gives one record per fetched module, in the same order,
    whose [puppet_tag] is the Puppetfile tag; the two branches of its [if]
    build the same record. *)
Theorem compare_modules_one_per_result (frg : Forge) (md : ModuleData)
    (H : NoDup (map fst md)) :
  compare_modules md (f_val (get_current_release_and_metadata frg md)) =
  Some (map difference_of (f_val (get_current_release_and_metadata frg md))).
Proof.
  unfold compare_modules. rewrite compare_fold_map; [reflexivity| |].
  - simpl. apply collect_results_nodup.
  - intros m i Hi. destruct (results_In _ _ _ _ Hi) as (d & Hin & Hf).
    destruct (fetch_module_data_some _ _ _ _ _ Hf) as (_ & _ & Ht & _).
    exists d. split; [exact (NoDup_dict_get _ _ _ H Hin) | symmetry; exact Ht].
Qed.

Lemma compare_modules_one_per_result_witness :
  compare_modules ex_manifest (f_val (get_current_release_and_metadata ex_forge ex_manifest)) =
  Some [("a", mkDiff "1.0.0" (Some "1.0.0") [mkDep "x/b" ">=1.0.0"] (Some "1.0.0"))].
Proof.
  assert (H : NoDup (map fst ex_manifest))
    by (exact (proj1 (parse_fold_invariant (file_lines ex_file) ([], []) (NoDup_nil _) (Forall_nil _)))).
  rewrite (compare_modules_one_per_result ex_forge ex_manifest H). vm_compute. reflexivity.
Defined.

(** ** The report *)

Lemma dict_get_map_tag (k : string) (md : ModuleData) :
  dict_get k (map (fun '(k, v) => (k, tag v)) md) = option_map tag (dict_get k md).
Proof.
  induction md as [|[k' v] md IH]; simpl; [reflexivity|].
  destruct (String.eqb k k'); [reflexivity | exact IH].
Qed.

Lemma check_dependency_step vb o md lines dbg h dep :
  exists extra,
    check_dependency vb o (map (fun '(k, v) => (k, tag v)) md) (lines, dbg, h) dep =
      (lines ++ [dep_line md o dep], dbg ++ extra, h || is_error_line (dep_line md o dep))
    /\ (forall m, ~ In (MsgModule m) extra).
Proof.
  unfold check_dependency. rewrite dict_get_map_tag. unfold dep_line.
  destruct (dict_get (replace_slash (dep_name dep)) md) as [e|]; simpl.
  - destruct (compare_versions (tag e) (version_requirement dep)); simpl.
    + exists []. rewrite app_nil_r, orb_false_r. split; [reflexivity | intros m []].
    + exists (if vb then [MsgDebugInvalid (replace_slash (dep_name dep))] else []).
      rewrite orb_true_r. split; [reflexivity|].
      intros m Hm. destruct vb; simpl in Hm; [destruct Hm as [Hm|[]]; discriminate | exact Hm].
  - exists (if vb then [MsgDebugNotFound (replace_slash (dep_name dep))] else []).
    rewrite orb_true_r. split; [reflexivity|].
    intros m Hm. destruct vb; simpl in Hm; [destruct Hm as [Hm|[]]; discriminate | exact Hm].
Qed.

Lemma check_dependency_fold vb o md deps lines dbg h :
  exists dbg',
    fold_left (check_dependency vb o (map (fun '(k, v) => (k, tag v)) md)) deps (lines, dbg, h) =
      (lines ++ map (dep_line md o) deps, dbg', h || existsb is_error_line (map (dep_line md o) deps))
    /\ (forall m, In (MsgModule m) dbg' -> In (MsgModule m) dbg).
Proof.
  revert lines dbg h. induction deps as [|dep deps IH]; intros lines dbg h.
  - exists dbg. simpl. rewrite app_nil_r, orb_false_r. split; [reflexivity | auto].
  - cbn [fold_left]. destruct (check_dependency_step vb o md lines dbg h dep) as (extra & E & Hx).
    rewrite E. destruct (IH (lines ++ [dep_line md o dep]) (dbg ++ extra)
                            (h || is_error_line (dep_line md o dep))) as (dbg' & E' & Hd).
    exists dbg'. rewrite E', <- app_assoc, <- orb_assoc. split; [reflexivity|].
    intros m Hm. specialize (Hd m Hm). apply in_app_iff in Hd.
    destruct Hd as [Hd|Hd]; [exact Hd | exfalso; exact (Hx m Hd)].
Qed.

(** Each Forge dependency of a module gives one report line, in order: "Not
    Found" when its name, with [/] turned into [-], is not in the Puppetfile,
    "Invalid" with the pinned tag when that tag fails the requirement, and
    plain otherwise. A module has errors exactly when one of its lines is
    not plain; being outdated does not count. *)
Theorem module_report_lines (vb : bool) (md : ModuleData) (m : string) (diff : Difference) :
  dg_lines (module_report vb md m diff) =
    map (dep_line md (str_ne (puppet_tag diff) (diff_module_endpoint_version diff)))
        (forge_dependencies diff)
  /\ dg_has_errors (module_report vb md m diff) =
     existsb is_error_line (dg_lines (module_report vb md m diff))
  /\ (forall m', ~ In (MsgModule m') (dg_debug (module_report vb md m diff))).
Proof.
  unfold module_report.
  destruct (check_dependency_fold vb (str_ne (puppet_tag diff) (diff_module_endpoint_version diff))
              md (forge_dependencies diff) [] [] false) as (dbg' & E & Hd).
  rewrite E. simpl. split; [reflexivity|]. split; [reflexivity|].
  intros m' Hm. exact (Hd m' Hm).
Qed.

Lemma existsb_diagnostics vb md diffs :
  existsb (fun '(m, d) => dg_has_errors (module_report vb md m d)) diffs =
  existsb dg_has_errors (map (fun '(m, d) => module_report vb md m d) diffs).
Proof. induction diffs as [|[m d] diffs IH]; simpl; [reflexivity|]. rewrite IH. reflexivity. Qed.

(** When the check runs without [--print-all], the exit code is 1 exactly
    when some fetched module has a dependency that is missing from the
    Puppetfile or fails its requirement, and 0 otherwise: a module that is
    only outdated is reported but passes. *)
Theorem exit_code_verdict (w : World) (args : Args)
    (Ha : parse_args (argv w) = PA_ok args) (Hp : print_all args = false)
    (Hc : existsb (String.eqb "Puppetfile") (changed_files w) = true) :
  exit_code (main w) =
    (if existsb dg_has_errors
          (diagnostics (forge w) (verbose args) (snd (parse_r10k_puppetfile (fs w) "Puppetfile")))
     then 1 else 0)%Z
  /\ In (MsgForgeVersion (Some "2.0.0") true) (out (main world_outdated_only))
  /\ exit_code (main world_outdated_only) = 0%Z.
Proof.
  split; [|vm_compute; split; [repeat (first [left; reflexivity | right]) | reflexivity]].
  unfold main. rewrite Ha, Hc, Hp. simpl orb.
  destruct (parse_r10k_puppetfile (fs w) "Puppetfile") as [out1 md]. simpl snd.
  unfold diagnostics.
  destruct (compare_modules md (f_val (get_current_release_and_metadata (forge w) md)))
    as [diffs|] eqn:Ec; [|exfalso; exact (compare_modules_results _ _ Ec)].
  pose proof (print_differences_has_errors diffs md (verbose args) false) as Hh.
  destruct (print_differences diffs md (verbose args) false) as [out3 has_errors].
  simpl in Hh. rewrite <- existsb_diagnostics, <- Hh.
  destruct has_errors; reflexivity.
Qed.

Lemma exit_code_verdict_witness :
  exit_code (main world_outdated_only) =
    (if existsb dg_has_errors (diagnostics ex_forge_outdated false
          (snd (parse_r10k_puppetfile (fs world_outdated_only) "Puppetfile"))) then 1 else 0)%Z.
Proof.
  assert (Ha : parse_args (argv world_outdated_only) = PA_ok default_args) by (vm_compute; reflexivity).
  assert (Hp : print_all default_args = false) by reflexivity.
  assert (Hc : existsb (String.eqb "Puppetfile") (changed_files world_outdated_only) = true)
    by (vm_compute; reflexivity).
  exact (proj1 (exit_code_verdict world_outdated_only default_args Ha Hp Hc)).
Defined.

(** When [git diff] does not list the Puppetfile and [--print-all] is off,
    the run prints the skip message and exits 0 without reading the
    Puppetfile or contacting the Forge. *)
Theorem unchanged_puppetfile_skips (w : World) (args : Args)
    (Ha : parse_args (argv w) = PA_ok args) (Hp : print_all args = false)
    (Hc : existsb (String.eqb "Puppetfile") (changed_files w) = false) :
  main w = mkResult [MsgNoChanges] [] 0.
Proof. unfold main. rewrite Ha, Hc, Hp. reflexivity. Qed.

Lemma unchanged_puppetfile_skips_witness :
  main (mkWorld ["-v"] ["README.md"] (fun _ => FsMissing) ex_forge) = mkResult [MsgNoChanges] [] 0.
Proof.
  assert (Ha : parse_args ["-v"] = PA_ok (mkArgs "Puppetfile" true false)) by (vm_compute; reflexivity).
  assert (Hp : print_all (mkArgs "Puppetfile" true false) = false) by reflexivity.
  assert (Hc : existsb (String.eqb "Puppetfile") ["README.md"] = false) by (vm_compute; reflexivity).
  exact (unchanged_puppetfile_skips (mkWorld ["-v"] ["README.md"] (fun _ => FsMissing) ex_forge) _ Ha Hp Hc).
Defined.

Lemma print_module_MsgModule vb pa h dg m :
  (forall m', ~ In (MsgModule m') (dg_debug dg)) ->
  (In (MsgModule m) (print_module vb pa h dg) <->
   m = dg_module dg /\ (dg_has_errors dg || dg_outdated dg || pa) = true).
Proof.
  intros Hd. unfold print_module. rewrite in_app_iff.
  destruct (dg_has_errors dg || dg_outdated dg || pa).
  - split.
    + intros [H|H]; [exfalso; exact (Hd m H)|].
      rewrite !in_app_iff in H. simpl in H.
      destruct H as [[H|[H|[H|[]]]]|[H|[[H|[]]|H]]]; try discriminate.
      * inversion H. split; reflexivity.
      * destruct (nonempty_list (dg_lines dg) || pa); simpl in H; [|contradiction].
        destruct H as [H|H]; [discriminate|]. apply in_map_iff in H.
        destruct H as [x [E _]]; discriminate.
      * destruct vb; simpl in H; [destruct H as [H|[H|[]]]; discriminate | contradiction].
    + intros [E _]. subst m. right. left. reflexivity.
  - simpl. split.
    + intros [H|[]]. exfalso. exact (Hd m H).
    + intros [_ H]. discriminate.
Qed.

Lemma print_fold_MsgModule diffs md vb pa out h m :
  In (MsgModule m)
     (fst (fold_left (fun '(out, has_errors) '(module, diff) =>
            let dg := module_report vb md module diff in
            let has_errors' := has_errors || dg_has_errors dg in
            ((out ++ print_module vb pa has_errors' dg)%list, has_errors'))
          diffs (out, h))) <->
  In (MsgModule m) out \/
  exists diff, In (m, diff) diffs /\
    (dg_has_errors (module_report vb md m diff) || dg_outdated (module_report vb md m diff) || pa) = true.
Proof.
  revert out h. induction diffs as [|[m0 d0] diffs IH]; intros out h; simpl.
  - split; [left; exact H | intros [H|(diff & [] & _)]; exact H].
  - rewrite IH, in_app_iff.
    rewrite (print_module_MsgModule _ _ _ _ _ (proj2 (proj2 (module_report_lines vb md m0 d0)))).
    rewrite (proj1 (module_report_fields vb md m0 d0)).
    split.
    + intros [[H|[E H]]|(diff & Hin & H)].
      * left. exact H.
      * subst m0. right. exists d0. split; [left; reflexivity | exact H].
      * right. exists diff. split; [right; exact Hin | exact H].
    + intros [H|(diff & [E|Hin] & H)].
      * left. left. exact H.
      * inversion E. subst. left. right. split; [reflexivity | exact H].
      * right. exists diff. split; [exact Hin | exact H].
Qed.

(** A module gets a section of the report exactly when it has dependency
    errors, is outdated, or [--print-all] is on. *)
Theorem module_printed_iff (diffs : list (string * Difference)) (md : ModuleData)
    (vb pa : bool) (m : string) :
  In (MsgModule m) (fst (print_differences diffs md vb pa)) <->
  exists diff, In (m, diff) diffs /\
    (dg_has_errors (module_report vb md m diff) || dg_outdated (module_report vb md m diff)
     || pa) = true.
Proof.
  unfold print_differences. rewrite print_fold_MsgModule. simpl.
  split; [intros [[]|H]; exact H | intros H; right; exact H].
Qed.

(** ** [compare_versions]: the clause scanner and the clause checks *)

Lemma take_while_parts p s :
  all_chars p (fst (take_while p s)) = true /\
  (fst (take_while p s) ++ snd (take_while p s))%string = s /\
  match snd (take_while p s) with String c _ => p c = false | EmptyString => True end.
Proof.
  induction s as [|c r IH]; simpl; [repeat split|].
  destruct (p c) eqn:Hc.
  - destruct (take_while p r) as [a b]. simpl in *.
    destruct IH as (H1 & H2 & H3). rewrite Hc, H1, H2. repeat split. exact H3.
  - simpl. repeat split. exact Hc.
Qed.

Lemma take_while_nonempty p c r :
  p c = true -> nonempty (fst (take_while p (String c r))) = true.
Proof. intros H. simpl. rewrite H. destruct (take_while p r). reflexivity. Qed.

Lemma findall_clauses_cons fuel c r :
  findall_clauses (S fuel) (String c r) =
  let (ops, r1) := take_while is_op_char (String c r) in
  let (_, r2) := take_while is_space r1 in
  let (ds, r3) := take_while is_digit_or_dot r2 in
  if is_op_char c && nonempty ds then (ops, ds) :: findall_clauses fuel r3
  else findall_clauses fuel r.
Proof. reflexivity. Qed.

Lemma findall_clauses_shape fuel s op v :
  In (op, v) (findall_clauses fuel s) ->
  nonempty op = true /\ all_chars is_op_char op = true /\
  nonempty v = true /\ all_chars is_digit_or_dot v = true.
Proof.
  revert s. induction fuel as [|fuel IH]; intros s Hin; [destruct Hin|].
  destruct s as [|c r]; [destruct Hin|]. rewrite findall_clauses_cons in Hin.
  pose proof (take_while_parts is_op_char (String c r)) as [Ho _].
  pose proof (take_while_nonempty is_op_char c r) as Hne.
  destruct (take_while is_op_char (String c r)) as [ops r1] eqn:E1.
  destruct (take_while is_space r1) as [sp r2].
  pose proof (take_while_parts is_digit_or_dot r2) as [Hd _].
  destruct (take_while is_digit_or_dot r2) as [ds r3]. simpl in Ho, Hd, Hne.
  destruct (is_op_char c) eqn:Hc; destruct (nonempty ds) eqn:Hds; simpl in Hin;
    try (apply IH in Hin; exact Hin).
  destruct Hin as [E|Hin]; [|apply IH in Hin; exact Hin].
  inversion E; subst. repeat split; auto.
Qed.

(** Every clause [re.findall(r'([<>=]+)\s*([\d.]+)', ...)] returns has a
    non-empty operator made of [<], [>] and [=] and a non-empty version made
    of digits and dots; a requirement with no [<], [>] or [=] has no clause,
    so [compare_versions] hands it to [semver.match] whole. *)
Theorem findall_clause_shape (req op v : string) :
  (In (op, v) (findall req) ->
   nonempty op = true /\ all_chars is_op_char op = true /\
   nonempty v = true /\ all_chars is_digit_or_dot v = true) /\
  (all_chars (fun c => negb (is_op_char c)) req = true ->
   findall req = [] /\
   forall p, compare_versions p req =
             match semver_match p req with Some r => r | None => false end).
Proof.
  split; [apply findall_clauses_shape|].
  intros Hn.
  assert (Hf : forall fuel s, all_chars (fun c => negb (is_op_char c)) s = true ->
                              findall_clauses fuel s = []).
  { induction fuel as [|fuel IH]; intros s Hs; [reflexivity|].
    destruct s as [|c r]; [reflexivity|]. simpl in Hs.
    apply andb_prop in Hs as [Hc Hr]. rewrite findall_clauses_cons.
    destruct (is_op_char c) eqn:E; [discriminate|].
    destruct (take_while is_op_char (String c r)) as [ops r1].
    destruct (take_while is_space r1) as [sp r2].
    destruct (take_while is_digit_or_dot r2) as [ds r3]. apply IH, Hr. }
  assert (H0 : findall req = []) by (apply Hf, Hn).
  split; [exact H0|]. intros p. unfold compare_versions. rewrite H0. reflexivity.
Qed.

Lemma digit_or_dot_not_op c : is_digit_or_dot c = true -> is_op_char c = false.
Proof.
  intros H. destruct c as [[] [] [] [] [] [] [] []]; first [reflexivity | discriminate H].
Qed.

Lemma digit_or_dot_not_space c : is_digit_or_dot c = true -> is_space c = false.
Proof.
  intros H. destruct c as [[] [] [] [] [] [] [] []]; first [reflexivity | discriminate H].
Qed.

Lemma take_while_all p s : all_chars p s = true -> take_while p s = (s, EmptyString).
Proof.
  induction s as [|c r IH]; simpl; [reflexivity|].
  intros H. apply andb_prop in H as [Hc Hr]. rewrite Hc, (IH Hr). reflexivity.
Qed.

Lemma take_while_app p a b :
  all_chars p a = true ->
  match b with String c _ => p c = false | EmptyString => True end ->
  take_while p (a ++ b) = (a, b).
Proof.
  induction a as [|c r IH]; simpl; intros Ha Hb.
  - destruct b as [|c r]; [reflexivity|]. simpl. rewrite Hb. reflexivity.
  - apply andb_prop in Ha as [Hc Hr]. rewrite Hc, (IH Hr Hb). reflexivity.
Qed.

(** A requirement made of one operator and one version is read as exactly
    that clause. *)
Lemma findall_single op q :
  nonempty op = true -> all_chars is_op_char op = true ->
  nonempty q = true -> all_chars is_digit_or_dot q = true ->
  findall (op ++ q) = [(op, q)].
Proof.
  intros Hop Hops Hq Hqs.
  destruct op as [|o os]; [discriminate|]. destruct q as [|c r]; [discriminate|].
  assert (Hc : is_digit_or_dot c = true) by (simpl in Hqs; apply andb_prop in Hqs; tauto).
  unfold findall. simpl String.length. simpl findall_clauses.
  simpl in Hops. apply andb_prop in Hops as [Ho Hos]. rewrite Ho.
  rewrite take_while_app by (exact Hos || exact (digit_or_dot_not_op c Hc)).
  simpl. rewrite (digit_or_dot_not_space c Hc).
  rewrite (take_while_all _ _ Hqs). simpl.
  destruct (String.length (os ++ String c r)); reflexivity.
Qed.

Lemma cmp_tuple_antisym a b : cmp_tuple b a = CompOpp (cmp_tuple a b).
Proof.
  destruct a as [[a1 a2] a3], b as [[b1 b2] b3]. unfold cmp_tuple, cmp_Z.
  pose proof (Z.compare_antisym a1 b1) as E1.
  pose proof (Z.compare_antisym a2 b2) as E2.
  pose proof (Z.compare_antisym a3 b3) as E3.
  destruct (a1 ?= b1)%Z, (b1 ?= a1)%Z; try discriminate E1;
  destruct (a2 ?= b2)%Z, (b2 ?= a2)%Z; try discriminate E2;
  destruct (a3 ?= b3)%Z, (b3 ?= a3)%Z; try discriminate E3; reflexivity.
Qed.

Lemma cmp_prerelease_tag_antisym a b :
  cmp_prerelease_tag b a = CompOpp (cmp_prerelease_tag a b).
Proof.
  destruct a, b; simpl; try reflexivity.
  - apply Z.compare_antisym.
  - apply String.compare_antisym.
Qed.

Lemma cmp_parts_antisym xs ys tie :
  cmp_parts ys xs (CompOpp tie) = CompOpp (cmp_parts xs ys tie).
Proof.
  revert ys. induction xs as [|x xs IH]; intros [|y ys]; simpl; try reflexivity.
  rewrite cmp_prerelease_tag_antisym.
  destruct (cmp_prerelease_tag x y); simpl; [apply IH | reflexivity | reflexivity].
Qed.

Lemma nat_cmp_antisym a b : nat_cmp b a = CompOpp (nat_cmp a b).
Proof.
  unfold nat_cmp. rewrite Nat.compare_antisym. apply cmp_parts_antisym.
Qed.

Lemma nonempty_false s : nonempty s = false -> s = EmptyString.
Proof. destruct s; [reflexivity | discriminate]. Qed.

Lemma version_compare_antisym v w : version_compare w v = CompOpp (version_compare v w).
Proof.
  unfold version_compare. rewrite cmp_tuple_antisym.
  destruct (cmp_tuple (major v, minor v, patch v) (major w, minor w, patch w)); try reflexivity.
  simpl. rewrite nat_cmp_antisym.
  destruct (nonempty (opt_str (prerelease v))) eqn:Ev,
           (nonempty (opt_str (prerelease w))) eqn:Ew;
    destruct (nat_cmp (prerelease v) (prerelease w)) eqn:Ec; try reflexivity;
    apply nonempty_false in Ev, Ew; unfold nat_cmp in Ec; rewrite Ev, Ew in Ec;
    discriminate Ec.
Qed.

Lemma semver_compare_antisym a b :
  semver_compare b a = option_map CompOpp (semver_compare a b).
Proof.
  unfold semver_compare.
  destruct (parse_version a), (parse_version b); try reflexivity.
  simpl. rewrite version_compare_antisym. reflexivity.
Qed.

Lemma check_single p op q :
  check_requirements p [(op, q)] =
  match semver_compare p q with
  | None => negb (String.eqb op ">=" || String.eqb op ">" || String.eqb op "<="
                  || String.eqb op "<" || String.eqb op "=")
  | Some c =>
      if String.eqb op ">=" then match c with Lt => false | _ => true end
      else if String.eqb op ">" then match c with Gt => true | _ => false end
      else if String.eqb op "<=" then match c with Gt => false | _ => true end
      else if String.eqb op "<" then match c with Lt => true | _ => false end
      else if String.eqb op "=" then match c with Eq => true | _ => false end
      else true
  end.
Proof.
  simpl.
  destruct (String.eqb op ">="), (String.eqb op ">"), (String.eqb op "<="),
           (String.eqb op "<"), (String.eqb op "=");
    destruct (semver_compare p q) as [[]|]; reflexivity.
Qed.

(** For a version made of digits and dots, the clauses [>=q] and [<q] (and
    [>q] and [<=q]) give opposite answers when [semver.compare] accepts both
    versions, and both fail when it raises [ValueError]. *)
Theorem clause_complement (p q : string)
    (Hq1 : nonempty q = true) (Hq2 : all_chars is_digit_or_dot q = true) :
  (semver_compare p q = None ->
   compare_versions p (">=" ++ q)%string = false /\ compare_versions p ("<" ++ q)%string = false /\
   compare_versions p (">" ++ q)%string = false /\ compare_versions p ("<=" ++ q)%string = false) /\
  (semver_compare p q <> None ->
   compare_versions p (">=" ++ q)%string = negb (compare_versions p ("<" ++ q)%string) /\
   compare_versions p (">" ++ q)%string = negb (compare_versions p ("<=" ++ q)%string)).
Proof.
  assert (E : forall op, nonempty op = true -> all_chars is_op_char op = true ->
              compare_versions p (op ++ q)%string = check_requirements p [(op, q)]).
  { intros op H1 H2. unfold compare_versions. rewrite findall_single; auto. }
  rewrite !E by reflexivity. rewrite !check_single. cbn.
  destruct (semver_compare p q) as [[]|]; split; intros H;
    first [ discriminate H | exfalso; apply H; reflexivity | repeat split ].
Qed.

(** Reading a clause from the other side: [p] satisfies [>=q] exactly when
    [q] satisfies [<=p], and likewise for [>] and [<], and for [=]. *)
Theorem clause_converse (p q : string)
    (Hp1 : nonempty p = true) (Hp2 : all_chars is_digit_or_dot p = true)
    (Hq1 : nonempty q = true) (Hq2 : all_chars is_digit_or_dot q = true) :
  compare_versions p (">=" ++ q)%string = compare_versions q ("<=" ++ p)%string /\
  compare_versions p (">" ++ q)%string = compare_versions q ("<" ++ p)%string /\
  compare_versions p ("=" ++ q)%string = compare_versions q ("=" ++ p)%string.
Proof.
  assert (E : forall a b op, nonempty b = true -> all_chars is_digit_or_dot b = true ->
              nonempty op = true -> all_chars is_op_char op = true ->
              compare_versions a (op ++ b)%string = check_requirements a [(op, b)]).
  { intros a b op H1 H2 H3 H4. unfold compare_versions. rewrite findall_single; auto. }
  rewrite !(E p q) by (assumption || reflexivity).
  rewrite !(E q p) by (assumption || reflexivity).
  rewrite !check_single. rewrite (semver_compare_antisym p q). cbn.
  destruct (semver_compare p q) as [[]|]; repeat split.
Qed.

Lemma findall_clause_shape_witness :
  all_chars (fun c => negb (is_op_char c)) "~1.2"%string = true /\ findall "~1.2"%string = [].
Proof.
  split; [reflexivity|].
  apply (proj1 (proj2 (findall_clause_shape "~1.2" "" "") eq_refl)).
Defined.

Lemma clause_complement_witness :
  semver_compare "1.2.0" "1.10.0" <> None /\
  compare_versions "1.2.0" (">=" ++ "1.10.0")%string =
    negb (compare_versions "1.2.0" ("<" ++ "1.10.0")%string) /\
  compare_versions "1.2.0" (">" ++ "1.10.0")%string =
    negb (compare_versions "1.2.0" ("<=" ++ "1.10.0")%string).
Proof.
  assert (H : semver_compare "1.2.0" "1.10.0" <> None) by (vm_compute; discriminate).
  split; [exact H|].
  apply (proj2 (clause_complement "1.2.0" "1.10.0" eq_refl eq_refl)). exact H.
Defined.

Lemma clause_converse_witness :
  compare_versions "2.1.0" (">=" ++ "1.10.0")%string = compare_versions "1.10.0" ("<=" ++ "2.1.0")%string /\
  compare_versions "2.1.0" (">" ++ "1.10.0")%string = compare_versions "1.10.0" ("<" ++ "2.1.0")%string /\
  compare_versions "2.1.0" ("=" ++ "1.10.0")%string = compare_versions "1.10.0" ("=" ++ "2.1.0")%string.
Proof.
  apply (clause_converse "2.1.0" "1.10.0"); reflexivity.
Defined.

Lemma dict_set_keys_incl {V} (x k : string) (v : V) (d : list (string * V)) :
  In x (map fst d) \/ x = k -> In x (map fst (dict_set k v d)).
Proof.
  rewrite dict_set_keys. intros H.
  destruct (existsb (String.eqb k) (map fst d)) eqn:E.
  - destruct H as [H|H]; [exact H|]. subst x. apply existsb_eqb_In. exact E.
  - apply in_app_iff. destruct H as [H|H]; [left; exact H | right; left; symmetry; exact H].
Qed.

Lemma compare_fold_keys md fm acc diffs m :
  fold_left (compare_step md) fm acc = Some diffs ->
  (In m (map fst fm) \/ exists ds, acc = Some ds /\ In m (map fst ds)) ->
  In m (map fst diffs).
Proof.
  revert acc. induction fm as [|[m0 i0] fm IH]; intros acc H Hm; simpl in H.
  - destruct Hm as [[]|(ds & E & Hin)]. rewrite H in E. inversion E. subst. exact Hin.
  - destruct acc as [ds|]; [|rewrite compare_step_none in H; discriminate].
    cbn [compare_step] in H.
    destruct (dict_get m0 md) as [e|]; [|rewrite compare_step_none in H; discriminate].
    apply (IH _ H). simpl in Hm. destruct Hm as [[E|Hin]|(ds' & E & Hin)].
    + right. eexists. split; [reflexivity|]. apply dict_set_keys_incl. right. symmetry. exact E.
    + left. exact Hin.
    + right. eexists. split; [reflexivity|]. apply dict_set_keys_incl. left.
      inversion E. subst. exact Hin.
Qed.

Lemma print_module_all vb h dg :
  In (MsgModule (dg_module dg)) (print_module vb true h dg)
  /\ In (MsgForgeVersion (dg_forge_version dg) (dg_outdated dg)) (print_module vb true h dg)
  /\ (forall l, In l (dg_lines dg) -> In (MsgDep l) (print_module vb true h dg)).
Proof.
  unfold print_module. rewrite !orb_true_r.
  split; [|split].
  - apply in_app_iff. right. left. reflexivity.
  - apply in_app_iff. right. right. right. left. reflexivity.
  - intros l Hl. apply in_app_iff. right. apply in_app_iff. right.
    apply in_app_iff. left. right. apply in_map. exact Hl.
Qed.

Lemma print_fold_contains diffs md vb out h x :
  (In x out \/ exists m d, In (m, d) diffs /\
                           forall h', In x (print_module vb true h' (module_report vb md m d))) ->
  In x (fst (fold_left (fun '(out, has_errors) '(module, diff) =>
            let dg := module_report vb md module diff in
            let has_errors' := has_errors || dg_has_errors dg in
            ((out ++ print_module vb true has_errors' dg)%list, has_errors'))
          diffs (out, h))).
Proof.
  revert out h. induction diffs as [|[m0 d0] diffs IH]; intros out h Hx; simpl.
  - destruct Hx as [Hx|(m & d & [] & _)]. exact Hx.
  - apply IH. destruct Hx as [Hx|(m & d & [E|Hin] & Hp)].
    + left. apply in_app_iff. left. exact Hx.
    + inversion E. subst. left. apply in_app_iff. right. apply Hp.
    + right. exists m, d. split; [exact Hin | exact Hp].
Qed.

(** C2 (as the code has it): with [-a/--print-all] every fetched module is
    listed with its Puppetfile tag line, its Forge version and outdated flag
    and all its dependency lines (findings included), and the run always
    exits 0. *)
Theorem C2_print_all_exits_zero (w : World) (args : Args)
    (Ha : parse_args (argv w) = PA_ok args) (Hp : print_all args = true) :
  exit_code (main w) = 0%Z
  /\ (forall m, In m (map fst (f_val (get_current_release_and_metadata (forge w)
                                      (snd (parse_r10k_puppetfile (fs w) "Puppetfile"))))) ->
                In (MsgModule m) (out (main w)))
  /\ (forall dg, In dg (diagnostics (forge w) (verbose args)
                                    (snd (parse_r10k_puppetfile (fs w) "Puppetfile"))) ->
        In (MsgModule (dg_module dg)) (out (main w))
        /\ In (MsgForgeVersion (dg_forge_version dg) (dg_outdated dg)) (out (main w))
        /\ (forall l, In l (dg_lines dg) -> In (MsgDep l) (out (main w)))).
Proof.
  unfold main, diagnostics. rewrite Ha, Hp, orb_true_r.
  destruct (parse_r10k_puppetfile (fs w) "Puppetfile") as [out1 md]. simpl snd.
  destruct (compare_modules md (f_val (get_current_release_and_metadata (forge w) md)))
    as [diffs|] eqn:Ec; [|exfalso; exact (compare_modules_results _ _ Ec)].
  destruct (print_differences diffs md (verbose args) true) as [out3 has_errors] eqn:Ep.
  rewrite andb_false_r. cbn [exit_code out].
  assert (K : forall m d x, In (m, d) diffs ->
              (forall h', In x (print_module (verbose args) true h'
                                  (module_report (verbose args) md m d))) ->
              In x ((out1 ++ f_out (get_current_release_and_metadata (forge w) md) ++ out3)
                    ++ [MsgValid])).
  { intros m d x Hin Hx. apply in_app_iff. left. apply in_app_iff. right.
    apply in_app_iff. right.
    replace out3 with (fst (print_differences diffs md (verbose args) true)) by (rewrite Ep; reflexivity).
    unfold print_differences. apply print_fold_contains. right. exists m, d. split; assumption. }
  assert (D : forall dg, In dg (map (fun '(m, d) => module_report (verbose args) md m d) diffs) ->
      In (MsgModule (dg_module dg)) ((out1 ++ f_out (get_current_release_and_metadata (forge w) md) ++ out3)
                    ++ [MsgValid])
      /\ In (MsgForgeVersion (dg_forge_version dg) (dg_outdated dg))
            ((out1 ++ f_out (get_current_release_and_metadata (forge w) md) ++ out3) ++ [MsgValid])
      /\ (forall l, In l (dg_lines dg) ->
            In (MsgDep l) ((out1 ++ f_out (get_current_release_and_metadata (forge w) md) ++ out3)
                    ++ [MsgValid]))).
  { intros dg Hdg. apply in_map_iff in Hdg. destruct Hdg as [[m d] [E Hin]]. subst dg.
    split; [|split].
    - apply (K m d); [exact Hin | intros h'; apply print_module_all].
    - apply (K m d); [exact Hin | intros h'; apply print_module_all].
    - intros l Hl. apply (K m d); [exact Hin|]. intros h'. apply (print_module_all _ h' _). exact Hl. }
  split; [reflexivity|]. split; [|exact D].
  intros m Hm. unfold compare_modules in Ec.
  pose proof (compare_fold_keys _ _ _ _ m Ec (or_introl Hm)) as Hk.
  apply in_map_iff in Hk. destruct Hk as [[m' d] [E Hin]]. simpl in E. subst m'.
  assert (Hd : In (module_report (verbose args) md m d)
                  (map (fun '(m, d) => module_report (verbose args) md m d) diffs))
    by (apply (in_map (fun '(m, d) => module_report (verbose args) md m d) diffs (m, d)); exact Hin).
  destruct (D _ Hd) as [H1 _]. rewrite (proj1 (module_report_fields _ _ _ _)) in H1. exact H1.
Qed.

Lemma C2_print_all_exits_zero_witness :
  exit_code (main (ex_world ["-a"])) = 0%Z
  /\ In (MsgModule "a") (out (main (ex_world ["-a"]))).
Proof.
  assert (Ha : parse_args (argv (ex_world ["-a"])) = PA_ok (mkArgs "Puppetfile" false true))
    by (vm_compute; reflexivity).
  assert (Hp : print_all (mkArgs "Puppetfile" false true) = true) by reflexivity.
  destruct (C2_print_all_exits_zero _ _ Ha Hp) as [H0 [H1 _]].
  split; [exact H0|]. apply H1. vm_compute. left. reflexivity.
Defined.
